(** * Schema-version bookkeeping and the migration runner of
      [store/sqlstore/upgrade.go]

    The Go file drives a relational store through [database/sql]:
    [getVersion] and [setVersion] keep one integer in the table
    [whatsmeow_version], and [Upgrade] runs the pending entries of
    [Upgrades], each in a transaction of its own.

    The embedding is shallow and state passing.  The store is a finite map
    from table names to rows; the connection pool, the open transactions,
    and an observation trace make up the mutable world [DB]; what the
    driver answers to each call is fixed by an oracle ([Driver]), so that
    every failure the Go code has to handle can be played. *)

From Stdlib Require Import ZArith String Ascii List Lia Bool.
From stdpp Require Import base gmap strings list.

Local Open Scope Z_scope.

(** ** Values, tables, statements *)

(** Go's [error] interface, identified by the message. *)
Definition error : Type := string.

(** What a cell of an [INTEGER] column can hold once read back through the
    driver: SQL NULL, an integer, or (SQLite's dynamic typing, MySQL's text
    protocol) a piece of text. *)
Inductive value : Type :=
| VNull
| VInt (z : Z)
| VText (s : string).

(** A store maps each existing table to its rows.  The only table whose rows
    this file ever touches has a single column, so a row is one [value]. *)
Abbreviation Store := (gmap string (list value)).

Definition whatsmeow_version : string := "whatsmeow_version"%string.

(** The statements sent through [Exec].  Column definitions of the
    [create table] statements are not interpreted. *)
Inductive stmt : Type :=
| CreateTableIfNotExists (table : string)
| DeleteFrom (table : string)
| InsertInto (table : string) (v : value).

Definition ErrNoSuchTable : error := "no such table"%string.
Definition ErrNoRows : error := "sql: no rows in result set"%string.
Definition ErrNullInt : error := "converting NULL to int is unsupported"%string.
Definition ErrSyntax : error := "strconv.ParseInt: invalid syntax"%string.
Definition ErrRange : error := "strconv.ParseInt: value out of range"%string.

(** The effect of a statement on a store (committed data, or the working
    copy of a transaction). *)
Definition run_stmt (q : stmt) (s : Store) : error + Store :=
  match q with
  | CreateTableIfNotExists t =>
      match s !! t with
      | Some _ => inr s
      | None => inr (<[t := []]> s)
      end
  | DeleteFrom t =>
      match s !! t with
      | Some _ => inr (<[t := []]> s)
      | None => inl ErrNoSuchTable
      end
  | InsertInto t v =>
      match s !! t with
      | Some rows => inr (<[t := rows ++ [v]]> s)
      | None => inl ErrNoSuchTable
      end
  end.

(** ** Scanning a cell into a Go [int]

    [Row.Scan(&version)] converts through [convertAssign]: NULL is refused,
    an integer is stored, text goes through [strconv.ParseInt(s, 10, 64)].
    On an error the destination keeps its old value. *)

Definition digit (a : ascii) : option Z :=
  let n := Z.of_nat (nat_of_ascii a) in
  if (48 <=? n) && (n <=? 57) then Some (n - 48) else None.

Fixpoint parse_digits (acc : Z) (s : string) : option Z :=
  match s with
  | EmptyString => Some acc
  | String a rest =>
      match digit a with
      | Some d => parse_digits (10 * acc + d) rest
      | None => None
      end
  end.

Definition in_int64 (z : Z) : bool := (- 2 ^ 63 <=? z) && (z <? 2 ^ 63).

Definition ParseInt (s : string) : error + Z :=
  let '(neg, body) :=
    match s with
    | String "-"%char rest => (true, rest)
    | String "+"%char rest => (false, rest)
    | _ => (false, s)
    end in
  match body with
  | EmptyString => inl ErrSyntax
  | _ =>
      match parse_digits 0 body with
      | None => inl ErrSyntax
      | Some n =>
          let z := if neg then - n else n in
          if in_int64 z then inr z else inl ErrRange
      end
  end.

Definition convertAssign (src : value) : error + Z :=
  match src with
  | VNull => inl ErrNullInt
  | VInt z => inr z
  | VText s => ParseInt s
  end.

(** [*sql.Row]: either the deferred error of the query (which includes
    [sql.ErrNoRows]) or the first row. *)
Definition Row : Type := error + value.

(** [row.Scan(&dest)]: the error, and the new content of [dest]. *)
Definition Row_Scan (r : Row) (dest : Z) : option error * Z :=
  match r with
  | inl e => (Some e, dest)
  | inr v =>
      match convertAssign v with
      | inl e => (Some e, dest)
      | inr z => (None, z)
      end
  end.

(** ** The driver, the pool and transactions *)

(** What the driver answers to one call.  [Failed e true] is a lost
    acknowledgement: the database did the work, the client got [e]. *)
Inductive outcome : Type :=
| Done
| Failed (e : error) (applied : bool).

Inductive pool_op : Type := OpExec | OpQuery | OpBegin.

Record Driver : Type := {
  (** outcome of the [n]-th call made on the pool *)
  pool_outcome : nat -> pool_op -> outcome;
  (** outcome of the [n]-th call made on transaction [id] *)
  tx_outcome : nat -> nat -> outcome
}.

(** Observations.  [EBegin], [ECommit] and [ERollback] are recorded by the
    pool; [EInfof v] is the line [c.log.Infof("Upgrading database to v%d", v)];
    [ECall i tx] marks the call [Upgrades[i](tx, c)] and [ESetVersion tx v]
    the call [c.setVersion(tx, v)]. *)
Inductive event : Type :=
| EBegin (tx : nat)
| EInfof (v : Z)
| ECall (index : Z) (tx : nat)
| ESetVersion (tx : nat) (v : Z)
| ECommit (tx : nat)
| ERollback (tx : nat).

(** [*sql.DB] together with the database behind it. *)
Record DB : Type := {
  committed : Store;        (** durable content *)
  open_txs : gset nat;      (** transactions begun and not yet terminated *)
  next_tx : nat;            (** identifier of the next transaction *)
  calls : nat;              (** calls made on the pool so far *)
  trace : list event;
  driver : Driver
}.

(** [*sql.Tx]: the handle, and the part of it that statements change. *)
Record Tx : Type := {
  tx_id : nat;
  tx_fault : nat -> outcome
}.

Record TxState : Type := {
  tx_data : Store;          (** working copy of the transaction *)
  tx_calls : nat            (** calls made on the transaction so far *)
}.

Definition TxM (A : Type) : Type := TxState -> A * TxState.

Definition emit (e : event) (d : DB) : DB :=
  {| committed := committed d; open_txs := open_txs d; next_tx := next_tx d;
     calls := calls d; trace := trace d ++ [e]; driver := driver d |}.

Definition tick (d : DB) : DB :=
  {| committed := committed d; open_txs := open_txs d; next_tx := next_tx d;
     calls := S (calls d); trace := trace d; driver := driver d |}.

Definition set_committed (s : Store) (d : DB) : DB :=
  {| committed := s; open_txs := open_txs d; next_tx := next_tx d;
     calls := calls d; trace := trace d; driver := driver d |}.

Definition close_tx (id : nat) (d : DB) : DB :=
  {| committed := committed d; open_txs := open_txs d ∖ {[id]};
     next_tx := next_tx d; calls := calls d; trace := trace d;
     driver := driver d |}.

(** [db.Exec(q)]: one statement, committed at once. *)
Definition DB_Exec (q : stmt) (d : DB) : option error * DB :=
  match pool_outcome (driver d) (calls d) OpExec with
  | Failed e false => (Some e, tick d)
  | o =>
      match run_stmt q (committed d) with
      | inl e => (Some e, tick d)
      | inr s =>
          (match o with Done => None | Failed e _ => Some e end,
           set_committed s (tick d))
      end
  end.

(** [db.QueryRow("SELECT version FROM <table> LIMIT 1")].  The Go method
    never returns nil; the option keeps the caller's nil test visible. *)
Definition DB_QueryRow (table : string) (d : DB) : option Row * DB :=
  match pool_outcome (driver d) (calls d) OpQuery with
  | Failed e _ => (Some (inl e), tick d)
  | Done =>
      match committed d !! table with
      | None => (Some (inl ErrNoSuchTable), tick d)
      | Some [] => (Some (inl ErrNoRows), tick d)
      | Some (v :: _) => (Some (inr v), tick d)
      end
  end.

(** [db.Begin()]: a new transaction whose working copy starts from the
    committed data. *)
Definition DB_Begin (d : DB) : (error + Tx * TxState) * DB :=
  match pool_outcome (driver d) (calls d) OpBegin with
  | Failed e _ => (inl e, tick d)
  | Done =>
      let id := next_tx d in
      (inr ({| tx_id := id; tx_fault := tx_outcome (driver d) id |},
            {| tx_data := committed d; tx_calls := 0 |}),
       {| committed := committed d; open_txs := {[id]} ∪ open_txs d;
          next_tx := S id; calls := S (calls d);
          trace := trace d ++ [EBegin id]; driver := driver d |})
  end.

(** [tx.Exec(q)] *)
Definition Tx_Exec (tx : Tx) (q : stmt) : TxM (option error) := fun st =>
  let n := S (tx_calls st) in
  match tx_fault tx (tx_calls st) with
  | Failed e false => (Some e, {| tx_data := tx_data st; tx_calls := n |})
  | o =>
      match run_stmt q (tx_data st) with
      | inl e => (Some e, {| tx_data := tx_data st; tx_calls := n |})
      | inr s =>
          (match o with Done => None | Failed e _ => Some e end,
           {| tx_data := s; tx_calls := n |})
      end
  end.

(** [tx.Commit()]: whatever the answer, the transaction is over for
    [database/sql]; the working copy becomes durable unless the commit
    failed without effect. *)
Definition Tx_Commit (tx : Tx) (st : TxState) (d : DB) : option error * DB :=
  let d' := emit (ECommit (tx_id tx)) (close_tx (tx_id tx) d) in
  match tx_fault tx (tx_calls st) with
  | Done => (None, set_committed (tx_data st) d')
  | Failed e true => (Some e, set_committed (tx_data st) d')
  | Failed e false => (Some e, d')
  end.

(** [tx.Rollback()]: the working copy is dropped. *)
Definition Tx_Rollback (tx : Tx) (st : TxState) (d : DB) : option error * DB :=
  let d' := emit (ERollback (tx_id tx)) (close_tx (tx_id tx) d) in
  match tx_fault tx (tx_calls st) with
  | Done => (None, d')
  | Failed e _ => (Some e, d')
  end.

(** ** The container and its methods *)

Record Container : Type := {
  db : DB;
  dialect : string
}.

Definition with_db (c : Container) (d : DB) : Container :=
  {| db := d; dialect := dialect c |}.

(** [type upgradeFunc func(tx *sql.Tx, c *Container) error]: a step acts on the
    transaction it is given and reads the container. *)
Definition upgradeFunc : Type := Tx -> Container -> TxM (option error).

(** [func (c *Container) getVersion() (int, error)] *)
Definition getVersion (c : Container) : (Z * option error) * Container :=
  let '(err, d1) := DB_Exec (CreateTableIfNotExists whatsmeow_version) (db c) in
  match err with
  | Some e => ((-1, Some e), with_db c d1)
  | None =>
      let version := 0 in
      let '(row, d2) := DB_QueryRow whatsmeow_version d1 in
      let version :=
        match row with
        | Some r => snd (Row_Scan r version)   (* _ = row.Scan(&version) *)
        | None => version
        end in
      ((version, None), with_db c d2)
  end.

(** [func (c *Container) setVersion(tx *sql.Tx, version int) error] *)
Definition setVersion (c : Container) (tx : Tx) (version : Z)
  : TxM (option error) := fun st =>
  let '(err, st1) := Tx_Exec tx (DeleteFrom whatsmeow_version) st in
  match err with
  | Some e => (Some e, st1)
  | None => Tx_Exec tx (InsertInto whatsmeow_version (VInt version)) st1
  end.

(** ** The migration steps of the repository *)

(** [_, err = tx.Exec(q); if err != nil { return err }; k] *)
Definition exec_or_return (tx : Tx) (q : stmt) (k : TxM (option error))
  : TxM (option error) := fun st =>
  let '(err, st1) := Tx_Exec tx q st in
  match err with
  | Some e => (Some e, st1)
  | None => k st1
  end.

(** [upgradeV1]: nine [create table IF NOT EXISTS] statements, in the order
    of the source (the statement for [whatsmeow_pre_keys] is commented out
    there). *)
Definition upgradeV1 : upgradeFunc := fun tx _ =>
  exec_or_return tx (CreateTableIfNotExists "whatsmeow_device") (
  exec_or_return tx (CreateTableIfNotExists "whatsmeow_identity_keys") (
  exec_or_return tx (CreateTableIfNotExists "whatsmeow_sessions") (
  exec_or_return tx (CreateTableIfNotExists "whatsmeow_sender_keys") (
  exec_or_return tx (CreateTableIfNotExists "whatsmeow_app_state_sync_keys") (
  exec_or_return tx (CreateTableIfNotExists "whatsmeow_app_state_version") (
  exec_or_return tx (CreateTableIfNotExists "whatsmeow_app_state_mutation_macs") (
  exec_or_return tx (CreateTableIfNotExists "whatsmeow_contacts") (
  exec_or_return tx (CreateTableIfNotExists "whatsmeow_chat_settings") (
  fun st => (None, st)))))))))).

(** [upgradeV2]: the body is commented out in the source; what is left is
    [return nil]. *)
Definition upgradeV2 : upgradeFunc := fun _ _ st => (None, st).

(** [var Upgrades = [...]upgradeFunc{upgradeV1, upgradeV2}] *)
Definition Upgrades : list upgradeFunc := [upgradeV1; upgradeV2].

(** ** The runner *)

(** How a call of [Upgrade] ends: it returns its [error] (nil is [None]),
    or it panics.  [OutOfFuel] is an artefact of the bounded loop below and
    is shown never to occur. *)
Inductive result : Type :=
| Returned (err : option error)
| Panicked
| OutOfFuel.

(** [l[i]] on a Go array: out of range is a run-time panic. *)
Definition index {A : Type} (l : list A) (i : Z) : option A :=
  if i <? 0 then None else l !! Z.to_nat i.

Definition len {A : Type} (l : list A) : Z := Z.of_nat (length l).

Section Runner.

(** The Go function reads the package variable [Upgrades].  The runner is
    written for any list of steps, so that statements about [N] steps can
    be made; [Upgrade Upgrades] is the function of the source. *)
Variable steps : list upgradeFunc.

(** One turn of the [for] loop of [Upgrade], entered with
    [version < len(Upgrades)].  [None] means: go on with [version + 1]. *)
Definition Upgrade_body (version : Z) (c : Container)
  : option result * Container :=
  let '(r, d1) := DB_Begin (db c) in
  match r with
  | inl e => (Some (Returned (Some e)), with_db c d1)
  | inr (tx, st) =>
      match index steps version with
      | None => (Some Panicked, with_db c d1)
      | Some migrateFunc =>
          let d2 := emit (EInfof (version + 1)) d1 in
          let d3 := emit (ECall version (tx_id tx)) d2 in
          let '(err, st1) := migrateFunc tx (with_db c d3) st in
          match err with
          | Some e =>
              let '(_, d4) := Tx_Rollback tx st1 d3 in
              (Some (Returned (Some e)), with_db c d4)
          | None =>
              let d4 := emit (ESetVersion (tx_id tx) (version + 1)) d3 in
              let '(err, st2) := setVersion (with_db c d4) tx (version + 1) st1 in
              match err with
              | Some e => (Some (Returned (Some e)), with_db c d4)
              | None =>
                  let '(err, d5) := Tx_Commit tx st2 d4 in
                  match err with
                  | Some e => (Some (Returned (Some e)), with_db c d5)
                  | None => (None, with_db c d5)
                  end
              end
          end
      end
  end.

(** [for ; version < len(Upgrades); version++ { ... }] *)
Fixpoint Upgrade_loop (fuel : nat) (version : Z) (c : Container)
  : result * Container :=
  if version <? len steps then
    match fuel with
    | O => (OutOfFuel, c)
    | S fuel' =>
        match Upgrade_body version c with
        | (Some r, c') => (r, c')
        | (None, c') => Upgrade_loop fuel' (version + 1) c'
        end
    end
  else (Returned None, c).

(** [func (c *Container) Upgrade() error] *)
Definition Upgrade (c : Container) : result * Container :=
  let '((version, err), c1) := getVersion c in
  match err with
  | Some e => (Returned (Some e), c1)
  | None => Upgrade_loop (Z.to_nat (len steps - version)) version c1
  end.

End Runner.

(** ** Reading the model *)

(** The version a reader of the committed data finds: the first row of the
    bookkeeping table scanned into an [int] that starts at 0. *)
Definition stored_version (s : Store) : Z :=
  match s !! whatsmeow_version with
  | Some (v :: _) => snd (Row_Scan (inr v) 0)
  | _ => 0
  end.

Definition persisted_version (c : Container) : Z :=
  stored_version (committed (db c)).

(** Number of rows of the bookkeeping table, when it exists. *)
Definition version_rows (s : Store) : option nat :=
  length <$> s !! whatsmeow_version.

(** A driver that answers [Done] to everything. *)
Definition healthy_driver : Driver :=
  {| pool_outcome := fun _ _ => Done; tx_outcome := fun _ _ => Done |}.

(** A brand-new store behind a given driver: no table, nothing open. *)
Definition fresh_db (drv : Driver) : DB :=
  {| committed := ∅; open_txs := ∅; next_tx := 0; calls := 0;
     trace := []; driver := drv |}.

Definition fresh (drv : Driver) : Container :=
  {| db := fresh_db drv; dialect := "mysql" |}.

(** [n] calls of [Upgrade], one after the other, on the same store. *)
Fixpoint Upgrade_times (steps : list upgradeFunc) (n : nat) (c : Container)
  : Container :=
  match n with
  | O => c
  | S m => snd (Upgrade steps (Upgrade_times steps m c))
  end.

(** ** Vocabulary of the statements *)

Definition has_version_table (s : Store) : Prop :=
  is_Some (s !! whatsmeow_version).

Definition healthy_tx (tx : Tx) : Prop := forall n, tx_fault tx n = Done.


(** The [SELECT] of [getVersion] is always answered. *)
Definition reads_ok (drv : Driver) : Prop :=
  forall n, pool_outcome drv n OpQuery = Done.





(** The bookkeeping table, if it exists, has at most one row. *)
Definition at_most_one_row (s : Store) : Prop :=
  match s !! whatsmeow_version with
  | Some rows => (length rows <= 1)%nat
  | None => True
  end.

(** The container as the step of index [v] sees it, called in [tx] once
    [Begin] has left the pool in [d1]. *)
Definition at_call (v : Z) (tx : Tx) (c : Container) (d1 : DB) : Container :=
  with_db c (emit (ECall v (tx_id tx)) (emit (EInfof (v + 1)) d1)).

(** What a turn of the loop that goes through leaves in the trace, for the
    step of index [v] run in transaction [id]. *)
Definition turn_events (id : nat) (v : Z) : list event :=
  [EBegin id; EInfof (v + 1); ECall v id; ESetVersion id (v + 1); ECommit id].


(** What a turn leaves when its step fails. *)
Definition failed_turn_events (id : nat) (v : Z) : list event :=
  [EBegin id; EInfof (v + 1); ECall v id; ERollback id].

(** The indices of the steps called, in the order of the calls. *)
Definition calls_of (t : list event) : list Z :=
  omap (fun ev => match ev with ECall i _ => Some i | _ => None end) t.

(** ** Scenarios *)

(** A step that always fails with [e]. *)
Definition failing (e : error) : upgradeFunc := fun _ _ st => (Some e, st).

(** The world after the first turn of [Upgrade], run with [upgradeV1] and a
    failing second step on a brand-new store. *)
Definition after_first_turn : Container :=
  snd (Upgrade_body [upgradeV1; failing "boom"] 0
         (snd (getVersion (fresh healthy_driver)))).

(** A store that both steps of the repository have been applied to. *)
Definition upgraded_store : Store := {[ whatsmeow_version := [VInt 2] ]}.

(** A store whose bookkeeping row is not a number. *)
Definition malformed_store : Store := {[ whatsmeow_version := [VText "v2"] ]}.

Definition container_of (s : Store) (drv : Driver) : Container :=
  {| db := {| committed := s; open_txs := ∅; next_tx := 0; calls := 0;
              trace := []; driver := drv |};
     dialect := "mysql" |}.

(** The [SELECT] of the first [getVersion] times out, and so does the
    second [Begin]. *)
Definition flaky_read : Driver :=
  {| pool_outcome := fun n op =>
       match n, op with
       | 1%nat, OpQuery => Failed "timeout" false
       | 3%nat, OpBegin => Failed "timeout" false
       | _, _ => Done
       end;
     tx_outcome := fun _ _ => Done |}.

(** The [CREATE TABLE] of the first [getVersion] is refused. *)
Definition no_create : Driver :=
  {| pool_outcome := fun n op =>
       match n, op with
       | 0%nat, OpExec => Failed "access denied" false
       | _, _ => Done
       end;
     tx_outcome := fun _ _ => Done |}.

(** In the first transaction everything works until the [DELETE] of
    [setVersion], the tenth statement after the nine of [upgradeV1]. *)
Definition delete_fails : Driver :=
  {| pool_outcome := fun _ _ => Done;
     tx_outcome := fun id n =>
       match id, n with
       | 0%nat, 9%nat => Failed "lock wait timeout" false
       | _, _ => Done
       end |}.

(** Every [CREATE TABLE] sent on the pool is answered. *)
Definition creates_ok (drv : Driver) : Prop :=
  forall n, pool_outcome drv n OpExec = Done.

(** [n] calls of [getVersion], one after the other. *)
Fixpoint getVersion_times (n : nat) (c : Container) : Container :=
  match n with
  | O => c
  | S m => snd (getVersion (getVersion_times m c))
  end.


(** ** More vocabulary and scenarios *)

(** The tables [upgradeV1] creates, in the order of its statements. *)
Definition V1_tables : list string :=
  [ "whatsmeow_device"; "whatsmeow_identity_keys"; "whatsmeow_sessions";
    "whatsmeow_sender_keys"; "whatsmeow_app_state_sync_keys";
    "whatsmeow_app_state_version"; "whatsmeow_app_state_mutation_macs";
    "whatsmeow_contacts"; "whatsmeow_chat_settings" ]%string.

(** [create table IF NOT EXISTS] for each table of a list, returning at the
    first error: the shape of the body of [upgradeV1]. *)
Fixpoint create_all (tx : Tx) (tables : list string) : TxM (option error) :=
  match tables with
  | [] => fun st => (None, st)
  | t :: rest =>
      exec_or_return tx (CreateTableIfNotExists t) (create_all tx rest)
  end.

(** The same container with another dialect. *)
Definition set_dialect (d : string) (c : Container) : Container :=
  {| db := db c; dialect := d |}.

(** A step does not look at the container it is given. *)
Definition ignores_container (f : upgradeFunc) : Prop :=
  forall tx c1 c2 st, f tx c1 st = f tx c2 st.

(** A step leaves every table other than the bookkeeping table as it found
    it, if the table was there. *)
Definition keeps_tables (f : upgradeFunc) : Prop :=
  forall tx c st t rows,
    t <> whatsmeow_version ->
    tx_data st !! t = Some rows ->
    tx_data (snd (f tx c st)) !! t = Some rows.

(** The consecutive indices [v, v+1, ..., v+m-1]. *)
Definition indices_from (v : Z) (m : nat) : list Z :=
  map (fun i => v + Z.of_nat i) (seq 0 m).

(** A store whose bookkeeping row is negative. *)
Definition negative_store : Store := {[ whatsmeow_version := [VInt (-1)] ]}.

(** A store with a table of its own, holding three rows. *)
Definition store_with_data : Store :=
  {[ "whatsmeow_device"%string := [VInt 7; VInt 8; VInt 9] ]}.

(** The first [Begin] is refused. *)
Definition begin_fails : Driver :=
  {| pool_outcome := fun n op =>
       match n, op with
       | 2%nat, OpBegin => Failed "too many connections" false
       | _, _ => Done
       end;
     tx_outcome := fun _ _ => Done |}.

(** The first [Commit] (twelfth call of transaction 0 with the steps of the
    repository) reports an error, with or without effect. *)
Definition commit_fails (applied : bool) : Driver :=
  {| pool_outcome := fun _ _ => Done;
     tx_outcome := fun id n =>
       match id, n with
       | 0%nat, 11%nat => Failed "connection reset" applied
       | _, _ => Done
       end |}.

(** The first [Commit] takes effect and its acknowledgement is lost. *)
Definition commit_fails_lost : Driver := commit_fails true.

(** The fourth statement of the first transaction is refused. *)
Definition fourth_fails : Driver :=
  {| pool_outcome := fun _ _ => Done;
     tx_outcome := fun id n =>
       match id, n with
       | 0%nat, 3%nat => Failed "disk full" false
       | _, _ => Done
       end |}.

(** A working transaction handle, and one built on a given driver. *)
Definition healthy_handle (id : nat) : Tx :=
  {| tx_id := id; tx_fault := fun _ => Done |}.

Definition handle_of (drv : Driver) (id : nat) : Tx :=
  {| tx_id := id; tx_fault := tx_outcome drv id |}.

Definition tx_state_of (s : Store) : TxState :=
  {| tx_data := s; tx_calls := 0 |}.

(** The world in which [Upgrade], run on a brand-new store behind [drv],
    enters its first turn. *)
Definition first_turn (drv : Driver) : Container :=
  snd (getVersion (fresh drv)).

(** The transaction of that turn once [upgradeV1] has run in it, and once
    [setVersion] has run after it. *)
Definition after_upgradeV1 (drv : Driver) : TxState :=
  snd (upgradeV1 (handle_of drv 0)
         (at_call 0 (handle_of drv 0) (first_turn drv)
            (snd (DB_Begin (db (first_turn drv)))))
         (tx_state_of (committed (db (first_turn drv))))).

Definition after_setVersion (drv : Driver) : TxState :=
  snd (setVersion (first_turn drv) (handle_of drv 0) (0 + 1)
         (after_upgradeV1 drv)).

(** * Properties *)

Ltac invert H := inversion H; subst; clear H.

(** ** The store *)

Lemma stored_version_create (s : Store) :
  s !! whatsmeow_version = None ->
  stored_version (<[whatsmeow_version := []]> s) = stored_version s.
Proof.
  intros H. unfold stored_version. rewrite lookup_insert_eq, H. reflexivity.
Qed.

Lemma stored_version_single (s : Store) (v : Z) :
  s !! whatsmeow_version = Some [VInt v] -> stored_version s = v.
Proof. intros H. unfold stored_version. rewrite H. reflexivity. Qed.

Lemma run_create_version (s : Store) :
  exists s', run_stmt (CreateTableIfNotExists whatsmeow_version) s = inr s' /\
             has_version_table s' /\
             stored_version s' = stored_version s /\
             (s !! whatsmeow_version = None ->
              s' = <[whatsmeow_version := []]> s) /\
             (has_version_table s -> s' = s).
Proof.
  unfold run_stmt, has_version_table.
  destruct (s !! whatsmeow_version) as [rows|] eqn:E.
  - exists s. rewrite E. repeat split; eauto; discriminate.
  - exists (<[whatsmeow_version := []]> s). repeat split.
    + rewrite lookup_insert_eq. eauto.
    + now apply stored_version_create.
    + intros [x Hx]. discriminate.
Qed.

(** ** [setVersion] *)

(** Whatever the driver does, a [setVersion] that reports no error has left
    exactly one row, the new version, in the working copy. *)
Lemma setVersion_None (c : Container) (tx : Tx) (v : Z) (st st' : TxState) :
  setVersion c tx v st = (None, st') ->
  tx_data st' !! whatsmeow_version = Some [VInt v].
Proof.
  unfold setVersion, Tx_Exec, run_stmt. intros H.
  destruct (tx_fault tx (tx_calls st)) as [|e [|]];
    destruct (tx_data st !! whatsmeow_version) eqn:E; simpl in H;
    try discriminate.
  rewrite lookup_insert_eq in H.
  destruct (tx_fault tx (S (tx_calls st))) as [|e [|]]; simpl in H;
    try discriminate.
  inversion H; subst; simpl. now rewrite lookup_insert_eq.
Qed.

Lemma setVersion_healthy (c : Container) (tx : Tx) (v : Z) (st : TxState) :
  healthy_tx tx -> has_version_table (tx_data st) ->
  exists st', setVersion c tx v st = (None, st').
Proof.
  intros Htx [rows Hrows]. unfold setVersion, Tx_Exec, run_stmt.
  rewrite !Htx, Hrows. simpl. rewrite Htx, lookup_insert_eq. eauto.
Qed.

(** ** The pool *)

Lemma DB_Begin_inl (d d1 : DB) (e : error) :
  DB_Begin d = (inl e, d1) -> d1 = tick d.
Proof.
  unfold DB_Begin. destruct (pool_outcome _ _ _); intros H; now inversion H.
Qed.

Lemma DB_Begin_inr (d d1 : DB) (tx : Tx) (st : TxState) :
  DB_Begin d = (inr (tx, st), d1) ->
  pool_outcome (driver d) (calls d) OpBegin = Done /\
  tx = {| tx_id := next_tx d; tx_fault := tx_outcome (driver d) (next_tx d) |} /\
  st = {| tx_data := committed d; tx_calls := 0 |} /\
  d1 = {| committed := committed d; open_txs := {[next_tx d]} ∪ open_txs d;
          next_tx := S (next_tx d); calls := S (calls d);
          trace := trace d ++ [EBegin (next_tx d)]; driver := driver d |}.
Proof.
  unfold DB_Begin. destruct (pool_outcome _ _ _); intros H; now inversion H.
Qed.

Lemma DB_Begin_Done (d : DB) :
  pool_outcome (driver d) (calls d) OpBegin = Done ->
  DB_Begin d =
  (inr ({| tx_id := next_tx d; tx_fault := tx_outcome (driver d) (next_tx d) |},
        {| tx_data := committed d; tx_calls := 0 |}),
   {| committed := committed d; open_txs := {[next_tx d]} ∪ open_txs d;
      next_tx := S (next_tx d); calls := S (calls d);
      trace := trace d ++ [EBegin (next_tx d)]; driver := driver d |}).
Proof. unfold DB_Begin. now intros ->. Qed.

Lemma DB_QueryRow_frame (table : string) (d : DB) :
  snd (DB_QueryRow table d) = tick d.
Proof.
  unfold DB_QueryRow. destruct (pool_outcome _ _ _); [|reflexivity].
  destruct (committed d !! table) as [[|? ?]|]; reflexivity.
Qed.

(** ** [getVersion] *)

(** [getVersion] only ever adds the empty bookkeeping table to the
    committed data, and leaves everything else of the world as it was. *)
Lemma getVersion_frame (c : Container) :
  let c1 := snd (getVersion c) in
  dialect c1 = dialect c /\ driver (db c1) = driver (db c) /\
  trace (db c1) = trace (db c) /\ open_txs (db c1) = open_txs (db c) /\
  next_tx (db c1) = next_tx (db c) /\
  stored_version (committed (db c1)) = stored_version (committed (db c)) /\
  (committed (db c1) = committed (db c) \/
   committed (db c) !! whatsmeow_version = None /\
   committed (db c1) = <[whatsmeow_version := []]> (committed (db c))) /\
  (has_version_table (committed (db c)) ->
   committed (db c1) = committed (db c)).
Proof.
  unfold getVersion, DB_Exec.
  destruct (run_create_version (committed (db c)))
    as (s' & Hrun & Htab & Hver & Hnew & Hold).
  rewrite Hrun.
  assert (Hs' : s' = committed (db c) \/
                committed (db c) !! whatsmeow_version = None /\
                s' = <[whatsmeow_version := []]> (committed (db c))).
  { destruct (committed (db c) !! whatsmeow_version) eqn:E.
    - left. apply Hold. red. eauto.
    - right. split; [reflexivity | now apply Hnew]. }
  destruct (pool_outcome (driver (db c)) (calls (db c)) OpExec)
    as [|e [|]]; simpl; [|repeat split; auto ..].
  match goal with
  | |- context [DB_QueryRow ?t ?d] =>
      pose proof (DB_QueryRow_frame t d) as Hq;
      destruct (DB_QueryRow t d) as [row d2]
  end.
  simpl in Hq. subst d2. simpl. repeat split; auto.
Qed.

(** When the [CREATE TABLE] is answered and the [SELECT] too, [getVersion]
    returns the stored version, and the table exists from then on. *)
Lemma getVersion_reads (c : Container) :
  pool_outcome (driver (db c)) (calls (db c)) OpExec = Done ->
  pool_outcome (driver (db c)) (S (calls (db c))) OpQuery = Done ->
  fst (getVersion c) = (persisted_version c, None) /\
  has_version_table (committed (db (snd (getVersion c)))).
Proof.
  intros He Hq. unfold getVersion, DB_Exec, DB_QueryRow, persisted_version.
  destruct (run_create_version (committed (db c)))
    as (s' & Hrun & Htab & Hver & _ & _).
  rewrite He, Hrun. simpl. rewrite Hq. rewrite <- Hver.
  unfold stored_version. destruct Htab as [rows Hrows]. rewrite Hrows.
  destruct rows; simpl; split; try reflexivity; red; rewrite Hrows; eauto.
Qed.

(** [getVersion] reports an error exactly when the [CREATE TABLE] is not
    answered, and the integer that comes with an error is [-1]. *)
Lemma getVersion_error (c : Container) :
  fst (getVersion c) =
  match pool_outcome (driver (db c)) (calls (db c)) OpExec with
  | Done => (fst (fst (getVersion c)), None)
  | Failed e _ => (-1, Some e)
  end.
Proof.
  unfold getVersion, DB_Exec.
  destruct (run_create_version (committed (db c))) as (s' & Hrun & _).
  rewrite Hrun.
  destruct (pool_outcome (driver (db c)) (calls (db c)) OpExec)
    as [|e [|]]; simpl; try reflexivity.
  destruct (DB_QueryRow _ _); reflexivity.
Qed.

(** ** One turn of the loop *)

Section Turn.

Variable steps : list upgradeFunc.

(** A turn never touches the driver or the configuration, and what it
    leaves durable is either what was there or a store whose bookkeeping
    table is the single row [v + 1]; the loop goes on only in the second
    case. *)
Lemma Upgrade_body_any (v : Z) (c c' : Container) (r : option result) :
  Upgrade_body steps v c = (r, c') ->
  driver (db c') = driver (db c) /\ dialect c' = dialect c /\
  (committed (db c') = committed (db c) \/
   committed (db c') !! whatsmeow_version = Some [VInt (v + 1)]) /\
  (r = None ->
   committed (db c') !! whatsmeow_version = Some [VInt (v + 1)]) /\
  (r <> Some OutOfFuel).
Proof.
  unfold Upgrade_body. intros H.
  destruct (DB_Begin (db c)) as [[e|[tx st]] d1] eqn:Hb.
  { apply DB_Begin_inl in Hb. invert H. simpl. repeat split; auto; discriminate. }
  apply DB_Begin_inr in Hb. destruct Hb as (_ & _ & _ & ->).
  destruct (index steps v) as [f|].
  2:{ invert H. simpl. repeat split; auto; discriminate. }
  match type of H with
  | context [f tx ?cc st] => destruct (f tx cc st) as [[e|] st1]
  end.
  { unfold Tx_Rollback in H.
    destruct (tx_fault tx (tx_calls st1)); invert H; simpl;
      repeat split; auto; discriminate. }
  match type of H with
  | context [setVersion ?cc tx ?n st1] =>
      destruct (setVersion cc tx n st1) as [[e|] st2] eqn:Hs
  end.
  { invert H. simpl. repeat split; auto; discriminate. }
  apply setVersion_None in Hs. unfold Tx_Commit in H.
  destruct (tx_fault tx (tx_calls st2)) as [|e [|]]; invert H; simpl;
    repeat split; auto; discriminate.
Qed.

(** A turn whose step reports an error: the transaction is rolled back,
    the step's error is what the turn returns, nothing durable changed. *)
Lemma Upgrade_body_step_fails (v : Z) (c : Container) (f : upgradeFunc)
      (tx : Tx) (st : TxState) (d1 : DB) (e : error) :
  DB_Begin (db c) = (inr (tx, st), d1) ->
  index steps v = Some f ->
  fst (f tx (at_call v tx c d1) st) = Some e ->
  Upgrade_body steps v c =
  (Some (Returned (Some e)),
   with_db c (emit (ERollback (tx_id tx))
                (close_tx (tx_id tx) (db (at_call v tx c d1))))).
Proof.
  intros Hb Hi Hf. unfold Upgrade_body. rewrite Hb, Hi.
  unfold at_call in Hf.
  match type of Hf with
  | context [f tx ?cc st] => destruct (f tx cc st) as [err st1]
  end.
  simpl in Hf. subst err. unfold Tx_Rollback.
  destruct (tx_fault tx (tx_calls st1)); reflexivity.
Qed.


End Turn.

(** ** The loop *)


Lemma calls_of_app (t1 t2 : list event) :
  calls_of (t1 ++ t2) = calls_of t1 ++ calls_of t2.
Proof. unfold calls_of. apply omap_app. Qed.


Section Loop.

Variable steps : list upgradeFunc.

Lemma Upgrade_loop_exit (fuel : nat) (v : Z) (c : Container) :
  len steps <= v -> Upgrade_loop steps fuel v c = (Returned None, c).
Proof.
  intros H. destruct fuel; simpl;
    destruct (Z.ltb_spec v (len steps)); solve [lia | reflexivity].
Qed.

(** The fuel [Upgrade] gives the loop is enough. *)
Lemma Upgrade_loop_fuel (fuel : nat) : forall (v : Z) (c : Container),
  (Z.to_nat (len steps - v) <= fuel)%nat ->
  fst (Upgrade_loop steps fuel v c) <> OutOfFuel.
Proof.
  induction fuel as [|fuel IH]; intros v c Hf; simpl;
    destruct (Z.ltb_spec v (len steps)) as [Hlt|Hge]; try discriminate.
  - lia.
  - destruct (Upgrade_body steps v c) as [[r|] c1] eqn:Hb.
    + apply Upgrade_body_any in Hb. simpl. intros ->. now apply Hb.
    + apply IH. lia.
Qed.


(** Whatever the driver and the steps do, the loop leaves the driver and
    the configuration alone, and a bookkeeping table of at most one row
    stays so. *)
Lemma Upgrade_loop_frame (fuel : nat) :
  forall (v : Z) (c c' : Container) (r : result),
  Upgrade_loop steps fuel v c = (r, c') ->
  driver (db c') = driver (db c) /\ dialect c' = dialect c /\
  (at_most_one_row (committed (db c)) ->
   at_most_one_row (committed (db c'))).
Proof.
  induction fuel as [|fuel IH]; intros v c c' r H; simpl in H;
    destruct (Z.ltb_spec v (len steps)) as [Hlt|Hge];
    try solve [invert H; repeat split; auto].
  destruct (Upgrade_body steps v c) as [[r1|] c1] eqn:Hb;
    apply Upgrade_body_any in Hb;
    destruct Hb as (Hd & Hdia & Hcom & Hnone & _).
  - invert H. repeat split; auto.
    destruct Hcom as [-> | Hrow]; [auto|].
    intros _. unfold at_most_one_row. rewrite Hrow. simpl. lia.
  - specialize (Hnone eq_refl).
    destruct (IH _ _ _ _ H) as (Hd' & Hdia' & Hrows).
    repeat split; try congruence.
    intros _. apply Hrows. unfold at_most_one_row. rewrite Hnone.
    simpl. lia.
Qed.

(** A loop entered at the stored version can only move the stored version
    up, and not past the number of steps. *)
Lemma Upgrade_loop_version (fuel : nat) :
  forall (v : Z) (c c' : Container) (r : result),
  Upgrade_loop steps fuel v c = (r, c') ->
  stored_version (committed (db c)) = v ->
  v <= stored_version (committed (db c')) <= Z.max v (len steps).
Proof.
  induction fuel as [|fuel IH]; intros v c c' r H Hver; simpl in H;
    destruct (Z.ltb_spec v (len steps)) as [Hlt|Hge];
    try solve [invert H; lia].
  destruct (Upgrade_body steps v c) as [[r1|] c1] eqn:Hb;
    apply Upgrade_body_any in Hb;
    destruct Hb as (_ & _ & Hcom & Hnone & _).
  - invert H. destruct Hcom as [-> | Hrow]; [lia|].
    rewrite (stored_version_single _ _ Hrow). lia.
  - specialize (Hnone eq_refl).
    pose proof (IH _ _ _ _ H (stored_version_single _ _ Hnone)). lia.
Qed.

End Loop.

(** ** The steps of the repository *)






(** ** [Upgrade] on a working driver *)

Section HealthyRun.

Variable steps : list upgradeFunc.


End HealthyRun.



(** [Upgrade] always comes to an end: the loop never runs out of the fuel
    it is given. *)
Lemma Upgrade_terminates (steps : list upgradeFunc) (c : Container) :
  fst (Upgrade steps c) <> OutOfFuel.
Proof.
  unfold Upgrade. destruct (getVersion c) as [[v [e|]] c1]; [discriminate|].
  apply Upgrade_loop_fuel. lia.
Qed.

(** ** A failing step *)

(** The loop at a turn whose step reports an error, whatever the driver
    does otherwise. *)
Lemma Upgrade_loop_step_fails (steps : list upgradeFunc) (fuel : nat) (v : Z)
      (c : Container) (f : upgradeFunc) (tx : Tx) (st : TxState) (d1 : DB)
      (e : error) :
  DB_Begin (db c) = (inr (tx, st), d1) ->
  v < len steps -> index steps v = Some f ->
  fst (f tx (at_call v tx c d1) st) = Some e ->
  Upgrade_loop steps (S fuel) v c =
  (Returned (Some e),
   with_db c (emit (ERollback (tx_id tx))
                (close_tx (tx_id tx) (db (at_call v tx c d1))))).
Proof.
  intros Hb Hlt Hi Hf. simpl.
  destruct (Z.ltb_spec v (len steps)); [|lia].
  now rewrite (Upgrade_body_step_fails steps v c f tx st d1 e Hb Hi Hf).
Qed.

(** The state in which that turn leaves the world. *)
Lemma Upgrade_loop_step_fails_state (steps : list upgradeFunc) (fuel : nat)
      (v : Z) (c : Container) (f : upgradeFunc) (tx : Tx) (st : TxState)
      (d1 : DB) (e : error) :
  DB_Begin (db c) = (inr (tx, st), d1) ->
  v < len steps -> index steps v = Some f ->
  fst (f tx (at_call v tx c d1) st) = Some e ->
  exists c',
    Upgrade_loop steps (S fuel) v c = (Returned (Some e), c') /\
    trace (db c') = trace (db c) ++ failed_turn_events (tx_id tx) v /\
    (tx_id tx ∉ open_txs (db c')) /\
    committed (db c') = committed (db c) /\
    driver (db c') = driver (db c) /\
    next_tx (db c') = S (next_tx (db c)).
Proof.
  intros Hb Hlt Hi Hf. eexists. split.
  - exact (Upgrade_loop_step_fails steps fuel v c f tx st d1 e Hb Hlt Hi Hf).
  - apply DB_Begin_inr in Hb. destruct Hb as (_ & -> & _ & ->).
    simpl. rewrite <- !app_assoc. simpl. repeat split; auto.
    intros [_ Hn]%elem_of_difference. apply Hn. now apply elem_of_singleton.
Qed.

(** C5 (a failing step).  Let a call of [Upgrade] have come to the turn of
    index [v] in state [c], whatever happened before and whatever the
    driver does otherwise.  If the transaction of the turn is begun and the
    step called in it reports the error [e], then [Upgrade] returns [e];
    the turn leaves in the trace the begin, the log line, the one call and
    the rollback of that transaction and nothing else (no later step is
    called, no version is written); the transaction is no longer open; the
    committed data, and so the stored version, are what they were when the
    turn started. *)
Theorem C5_step_failure (steps : list upgradeFunc) (c0 : Container)
        (fuel : nat) (v : Z) (c : Container) (f : upgradeFunc) (tx : Tx)
        (st : TxState) (d1 : DB) (e : error) :
  Upgrade steps c0 = Upgrade_loop steps (S fuel) v c ->
  DB_Begin (db c) = (inr (tx, st), d1) ->
  v < len steps -> index steps v = Some f ->
  fst (f tx (at_call v tx c d1) st) = Some e ->
  exists c',
    Upgrade steps c0 = (Returned (Some e), c') /\
    trace (db c') = trace (db c) ++ failed_turn_events (tx_id tx) v /\
    (tx_id tx ∉ open_txs (db c')) /\
    committed (db c') = committed (db c) /\
    persisted_version c' = persisted_version c.
Proof.
  intros Hreach Hb Hlt Hi Hf.
  destruct (Upgrade_loop_step_fails_state steps fuel v c f tx st d1 e
              Hb Hlt Hi Hf) as (c' & Hl & Htr & Hop & Hcom & _).
  exists c'. unfold persisted_version. rewrite Hreach, Hcom. auto.
Qed.

(** The second step of two fails, on a brand-new store: what the first
    turn committed stays. *)
Lemma C5_step_failure_witness :
  exists c',
    Upgrade [upgradeV1; failing "boom"] (fresh healthy_driver) =
      (Returned (Some "boom"%string), c') /\
    trace (db c') = trace (db after_first_turn) ++ failed_turn_events 1 1 /\
    (1%nat ∉ open_txs (db c')) /\
    committed (db c') = committed (db after_first_turn) /\
    persisted_version c' = persisted_version after_first_turn.
Proof.
  apply (C5_step_failure [upgradeV1; failing "boom"] (fresh healthy_driver)
           0 1 after_first_turn (failing "boom")
           {| tx_id := 1; tx_fault := fun _ => Done |}
           {| tx_data := committed (db after_first_turn); tx_calls := 0 |}
           (snd (DB_Begin (db after_first_turn))) "boom");
    vm_compute; reflexivity.
Defined.




(** ** [Upgrade] under any driver *)

(** The value of [getVersion], case by case: the [CREATE TABLE] is not
    answered; it is, and the [SELECT] is not; both are. *)
Lemma getVersion_value (c : Container) :
  fst (getVersion c) =
  match pool_outcome (driver (db c)) (calls (db c)) OpExec with
  | Failed e _ => (-1, Some e)
  | Done =>
      match pool_outcome (driver (db c)) (S (calls (db c))) OpQuery with
      | Failed _ _ => (0, None)
      | Done => (persisted_version c, None)
      end
  end.
Proof.
  destruct (pool_outcome (driver (db c)) (calls (db c)) OpExec) eqn:He.
  2:{ rewrite getVersion_error, He. reflexivity. }
  destruct (pool_outcome (driver (db c)) (S (calls (db c))) OpQuery) eqn:Hq.
  { now apply getVersion_reads. }
  unfold getVersion, DB_Exec, DB_QueryRow.
  destruct (run_create_version (committed (db c))) as (s' & Hrun & _).
  rewrite He, Hrun. simpl. rewrite Hq. reflexivity.
Qed.

Lemma Upgrade_any (steps : list upgradeFunc) (c : Container) :
  let c' := snd (Upgrade steps c) in
  driver (db c') = driver (db c) /\
  (at_most_one_row (committed (db c)) ->
   at_most_one_row (committed (db c'))) /\
  (reads_ok (driver (db c)) ->
   persisted_version c <= persisted_version c'
     <= Z.max (persisted_version c) (len steps)).
Proof.
  unfold Upgrade. pose proof (getVersion_value c) as Hval.
  pose proof (getVersion_frame c) as Hfr. simpl in Hfr.
  destruct (getVersion c) as [[v err] c1]. simpl in Hval, Hfr.
  destruct Hfr as (_ & Hd & _ & _ & _ & Hsv & Hcom & _).
  assert (Hrows : at_most_one_row (committed (db c)) ->
                  at_most_one_row (committed (db c1))).
  { destruct Hcom as [-> | [_ ->]]; [auto|]. intros _.
    unfold at_most_one_row. rewrite lookup_insert_eq. simpl. lia. }
  unfold persisted_version.
  destruct err as [e|]; simpl.
  { rewrite Hsv. repeat split; auto; lia. }
  destruct (Upgrade_loop steps (Z.to_nat (len steps - v)) v c1)
    as [r c'] eqn:Hl. simpl.
  destruct (Upgrade_loop_frame _ _ _ _ _ _ Hl) as (Hd' & _ & Hrows').
  split; [congruence|]. split; [auto|]. intros Hreads.
  assert (Hv : stored_version (committed (db c1)) = v).
  { rewrite Hsv. rewrite (Hreads _) in Hval.
    destruct (pool_outcome _ _ OpExec); now invert Hval. }
  pose proof (Upgrade_loop_version _ _ _ _ _ _ Hl Hv). rewrite <- Hsv, Hv. lia.
Qed.

Lemma Upgrade_times_driver (steps : list upgradeFunc) (n : nat) (c : Container) :
  driver (db (Upgrade_times steps n c)) = driver (db c).
Proof.
  induction n as [|n IH]; [reflexivity|]. simpl.
  rewrite (proj1 (Upgrade_any steps _)). exact IH.
Qed.

Lemma Upgrade_times_add (steps : list upgradeFunc) (m n : nat) (c : Container) :
  Upgrade_times steps (n + m) c =
  Upgrade_times steps n (Upgrade_times steps m c).
Proof. induction n as [|n IH]; simpl; [reflexivity | now rewrite IH]. Qed.

Lemma Upgrade_times_version (steps : list upgradeFunc) (n : nat) :
  forall c, reads_ok (driver (db c)) ->
  persisted_version c <= persisted_version (Upgrade_times steps n c)
    <= Z.max (persisted_version c) (len steps).
Proof.
  induction n as [|n IH]; intros c Hr; simpl; [lia|].
  specialize (IH c Hr).
  destruct (Upgrade_any steps (Upgrade_times steps n c)) as (_ & _ & Hv).
  rewrite Upgrade_times_driver in Hv. specialize (Hv Hr). simpl in Hv. lia.
Qed.

(** ** Monotonicity *)

(** C4, as amended.  Over any sequence of calls of [Upgrade], whatever the
    steps do and whatever the driver answers to [Exec], [Begin], [Commit]
    and [Rollback], provided the [SELECT] of [getVersion] is answered: the
    stored version never goes down, and on a store that starts at a version
    not above the number of steps it never goes above it. *)
Theorem C4_monotone (steps : list upgradeFunc) (c : Container) (m n : nat) :
  reads_ok (driver (db c)) ->
  persisted_version c <= len steps ->
  (m <= n)%nat ->
  persisted_version (Upgrade_times steps m c)
    <= persisted_version (Upgrade_times steps n c) <= len steps.
Proof.
  intros Hr Hle Hmn.
  replace n with ((n - m) + m)%nat by lia. rewrite Upgrade_times_add.
  pose proof (Upgrade_times_version steps m c Hr) as Hm.
  pose proof (Upgrade_times_version steps (n - m) (Upgrade_times steps m c))
    as Hn.
  rewrite Upgrade_times_driver in Hn. specialize (Hn Hr). lia.
Qed.

(** Three calls in a row, the first of which loses its version write. *)
Lemma C4_monotone_witness :
  persisted_version (Upgrade_times Upgrades 1 (fresh delete_fails))
    <= persisted_version (Upgrade_times Upgrades 3 (fresh delete_fails))
    <= len Upgrades.
Proof.
  apply (C4_monotone Upgrades (fresh delete_fails) 1 3).
  - intros n. reflexivity.
  - vm_compute. discriminate.
  - lia.
Defined.

(** C4 as stated fails: on a store at version 2, a [SELECT] that times out
    makes [Upgrade] start again from step 0; the first turn commits
    version 1, the second cannot begin, and the stored version has gone
    from 2 to 1. *)
Lemma C4_counterexample :
  persisted_version (container_of upgraded_store flaky_read) = 2 /\
  fst (Upgrade Upgrades (container_of upgraded_store flaky_read)) =
    Returned (Some "timeout"%string) /\
  persisted_version
    (snd (Upgrade Upgrades (container_of upgraded_store flaky_read))) = 1.
Proof. vm_compute. repeat split; reflexivity. Qed.

(** ** First read *)

Lemma getVersion_creates (c : Container) :
  pool_outcome (driver (db c)) (calls (db c)) OpExec = Done ->
  committed (db c) !! whatsmeow_version = None ->
  committed (db (snd (getVersion c))) =
    <[whatsmeow_version := []]> (committed (db c)).
Proof.
  intros He Hno. unfold getVersion, DB_Exec, run_stmt. rewrite He, Hno.
  match goal with
  | |- context [DB_QueryRow ?t ?d] =>
      pose proof (DB_QueryRow_frame t d) as Hq;
      destruct (DB_QueryRow t d) as [row d2]
  end.
  simpl in Hq. subst d2. reflexivity.
Qed.

Lemma getVersion_zero (c : Container) :
  pool_outcome (driver (db c)) (calls (db c)) OpExec = Done ->
  persisted_version c = 0 ->
  fst (getVersion c) = (0, None).
Proof.
  intros He Hz. rewrite getVersion_value, He, Hz.
  destruct (pool_outcome _ _ OpQuery); reflexivity.
Qed.

Lemma getVersion_times_driver (c : Container) (n : nat) :
  driver (db (getVersion_times n c)) = driver (db c).
Proof.
  induction n as [|n IH]; [reflexivity|].
  pose proof (getVersion_frame (getVersion_times n c)) as Hfr.
  cbv zeta in Hfr. destruct Hfr as (_ & Hd & _).
  change (getVersion_times (S n) c)
    with (snd (getVersion (getVersion_times n c))).
  now rewrite Hd.
Qed.

Lemma getVersion_times_empty (c : Container) (n : nat) :
  creates_ok (driver (db c)) ->
  committed (db c) !! whatsmeow_version = None ->
  committed (db (getVersion_times (S n) c)) =
    <[whatsmeow_version := []]> (committed (db c)).
Proof.
  intros Hc Hno. induction n as [|n IH].
  - simpl. apply getVersion_creates; auto.
  - pose proof (getVersion_frame (getVersion_times (S n) c)) as Hfr.
    cbv zeta in Hfr. destruct Hfr as (_ & _ & _ & _ & _ & _ & _ & Hsame).
    change (getVersion_times (S (S n)) c)
      with (snd (getVersion (getVersion_times (S n) c))).
    rewrite Hsame; [exact IH|]. red. rewrite IH, lookup_insert_eq. eauto.
Qed.

(** C7 (idempotent first read).  On a store that has no bookkeeping table,
    behind a driver that answers the [CREATE TABLE] statements, every call
    of [getVersion] in a row returns 0 and no error (the first one
    included, nothing having been initialised before), and after the first
    call and after each later one the committed data is the initial data
    plus the empty bookkeeping table. *)
Theorem C7_first_read (c : Container) (n : nat) :
  committed (db c) !! whatsmeow_version = None ->
  creates_ok (driver (db c)) ->
  fst (getVersion (getVersion_times n c)) = (0, None) /\
  committed (db (getVersion_times (S n) c)) =
    <[whatsmeow_version := []]> (committed (db c)).
Proof.
  intros Hno Hc. split; [|now apply getVersion_times_empty].
  apply getVersion_zero.
  - rewrite getVersion_times_driver. apply Hc.
  - unfold persisted_version, stored_version. destruct n as [|n].
    + simpl. now rewrite Hno.
    + rewrite (getVersion_times_empty c n Hc Hno).
      now rewrite lookup_insert_eq.
Qed.

(** Two reads of a brand-new store. *)
Lemma C7_first_read_witness :
  fst (getVersion (getVersion_times 1 (fresh healthy_driver))) = (0, None) /\
  committed (db (getVersion_times 2 (fresh healthy_driver))) =
    <[whatsmeow_version := []]> ∅.
Proof.
  apply (C7_first_read (fresh healthy_driver) 1).
  - reflexivity.
  - intros n. reflexivity.
Defined.

(** C6 as stated fails: the first read of a brand-new store creates the
    bookkeeping table with no row in it, not with one. *)
Lemma C6_counterexample :
  committed (db (snd (getVersion (fresh healthy_driver)))) !! whatsmeow_version
    = Some [] /\
  version_rows (committed (db (snd (getVersion (fresh healthy_driver)))))
    <> Some 1%nat.
Proof. vm_compute. split; [reflexivity | discriminate]. Qed.

(** C6, as amended.  On a store without bookkeeping table, once the
    [CREATE TABLE] is answered, the first read returns 0 and leaves the
    table in place with no row.  A [setVersion] that reports no error
    leaves exactly one row, the new version, in its transaction.  And over
    any sequence of calls of [Upgrade], whatever the steps and the driver
    do, the committed table never has more than one row. *)
Theorem C6_rows (steps : list upgradeFunc) (c : Container) (n : nat) :
  committed (db c) !! whatsmeow_version = None ->
  pool_outcome (driver (db c)) (calls (db c)) OpExec = Done ->
  fst (getVersion c) = (0, None) /\
  version_rows (committed (db (snd (getVersion c)))) = Some 0%nat /\
  (forall c0 tx v st st',
     setVersion c0 tx v st = (None, st') ->
     tx_data st' !! whatsmeow_version = Some [VInt v] /\
     version_rows (tx_data st') = Some 1%nat) /\
  at_most_one_row (committed (db (Upgrade_times steps n c))).
Proof.
  intros Hno He. repeat split.
  - apply getVersion_zero; [exact He|].
    unfold persisted_version, stored_version. now rewrite Hno.
  - rewrite (getVersion_creates c He Hno). unfold version_rows.
    now rewrite lookup_insert_eq.
  - now apply setVersion_None in H.
  - apply setVersion_None in H. unfold version_rows. now rewrite H.
  - induction n as [|n IH]; simpl.
    + unfold at_most_one_row. now rewrite Hno.
    + now apply (Upgrade_any steps (Upgrade_times steps n c)).
Qed.

(** A brand-new store, and two calls of [Upgrade] of which the first loses
    its version write. *)
Lemma C6_rows_witness :
  fst (getVersion (fresh delete_fails)) = (0, None) /\
  version_rows (committed (db (snd (getVersion (fresh delete_fails)))))
    = Some 0%nat /\
  (forall c0 tx v st st',
     setVersion c0 tx v st = (None, st') ->
     tx_data st' !! whatsmeow_version = Some [VInt v] /\
     version_rows (tx_data st') = Some 1%nat) /\
  at_most_one_row (committed (db (Upgrade_times Upgrades 2 (fresh delete_fails)))).
Proof.
  apply (C6_rows Upgrades (fresh delete_fails) 2); reflexivity.
Defined.

(** ** Errors *)

(** C10.  When [getVersion] returns an error, the integer returned with it
    is [-1]. *)
Theorem C10_error_value (c : Container) (e : error) :
  snd (fst (getVersion c)) = Some e -> fst (fst (getVersion c)) = -1.
Proof.
  rewrite getVersion_value.
  destruct (pool_outcome _ _ OpExec); [|reflexivity].
  destruct (pool_outcome _ _ OpQuery); discriminate.
Qed.

(** A store on which the table cannot be created. *)
Lemma C10_error_value_witness :
  fst (fst (getVersion (fresh no_create))) = -1.
Proof.
  apply (C10_error_value (fresh no_create) "access denied"). reflexivity.
Defined.

(** C9 as stated fails: a bookkeeping row that does not scan, and a
    [SELECT] that times out, are both read as version 0 with no error, and
    [Upgrade] goes on from there. *)
Lemma C9_counterexample :
  fst (Row_Scan (inr (VText "v2")) 0) = Some ErrSyntax /\
  fst (getVersion (container_of malformed_store healthy_driver)) = (0, None) /\
  fst (Upgrade Upgrades (container_of malformed_store healthy_driver)) =
    Returned None /\
  fst (getVersion (container_of upgraded_store flaky_read)) = (0, None).
Proof. vm_compute. repeat split; reflexivity. Qed.

(** C9, as amended.  [getVersion] returns an error exactly when the
    [CREATE TABLE] is not answered; [Upgrade] then returns this very error,
    having begun no transaction and called no step.  When the
    [CREATE TABLE] is answered there is no error: a [SELECT] that fails
    gives version 0, and otherwise the version is the first row scanned
    into an [int] that starts at 0, so 0 again when there is no row or the
    row does not scan. *)
Theorem C9_bookkeeping_errors (steps : list upgradeFunc) (c : Container) :
  match pool_outcome (driver (db c)) (calls (db c)) OpExec with
  | Failed e _ =>
      fst (getVersion c) = (-1, Some e) /\
      fst (Upgrade steps c) = Returned (Some e) /\
      trace (db (snd (Upgrade steps c))) = trace (db c) /\
      open_txs (db (snd (Upgrade steps c))) = open_txs (db c)
  | Done =>
      fst (getVersion c) =
      (match pool_outcome (driver (db c)) (S (calls (db c))) OpQuery with
       | Failed _ _ => 0
       | Done => persisted_version c
       end, None)
  end.
Proof.
  pose proof (getVersion_value c) as Hval.
  pose proof (getVersion_frame c) as Hfr. cbv zeta in Hfr.
  destruct (pool_outcome (driver (db c)) (calls (db c)) OpExec) as [|e b].
  - rewrite Hval. destruct (pool_outcome _ _ OpQuery); reflexivity.
  - unfold Upgrade. destruct (getVersion c) as [[v err] c1].
    simpl in Hval, Hfr. invert Hval. simpl.
    destruct Hfr as (_ & _ & Htr & Hop & _). auto.
Qed.

(** C2 fails on the code.  The repository's steps on a brand-new store,
    with the [DELETE] of the first [setVersion] refused: [Upgrade] returns
    that error, and transaction 0 is still open, neither committed nor
    rolled back. *)
Theorem C2_open_after_setVersion_failure :
  fst (Upgrade Upgrades (fresh delete_fails)) =
    Returned (Some "lock wait timeout"%string) /\
  trace (db (snd (Upgrade Upgrades (fresh delete_fails)))) =
    [EBegin 0; EInfof 1; ECall 0 0; ESetVersion 0 1] /\
  elements (open_txs (db (snd (Upgrade Upgrades (fresh delete_fails))))) =
    [0%nat].
Proof. vm_compute. repeat split; reflexivity. Qed.




(** * Further properties of the code *)

(** ** [getVersion] and [setVersion] as a pair *)

(** X1.  [getVersion] reads: whatever the driver answers, it begins no
    transaction, writes nothing to the trace, and changes no row of the
    committed data.  Every table other than the bookkeeping table is as it
    was; the bookkeeping table keeps its rows if it was there, and is
    missing or empty afterwards if it was not. *)
Theorem X1_getVersion_reads_only (c : Container) :
  trace (db (snd (getVersion c))) = trace (db c) /\
  open_txs (db (snd (getVersion c))) = open_txs (db c) /\
  next_tx (db (snd (getVersion c))) = next_tx (db c) /\
  (forall t, t <> whatsmeow_version ->
             committed (db (snd (getVersion c))) !! t = committed (db c) !! t) /\
  (forall rows, committed (db c) !! whatsmeow_version = Some rows ->
     committed (db (snd (getVersion c))) !! whatsmeow_version = Some rows) /\
  (committed (db c) !! whatsmeow_version = None ->
     committed (db (snd (getVersion c))) !! whatsmeow_version = None \/
     committed (db (snd (getVersion c))) !! whatsmeow_version = Some []).
Proof.
  pose proof (getVersion_frame c) as Hfr. cbv zeta in Hfr.
  destruct Hfr as (_ & _ & Htr & Hop & Hnx & _ & Hcom & Hsame).
  repeat split; auto.
  - intros t Ht. destruct Hcom as [-> | [_ ->]]; [reflexivity|].
    now rewrite lookup_insert_ne.
  - intros rows Hrows. rewrite Hsame; [exact Hrows|]. red. eauto.
  - intros Hno. destruct Hcom as [-> | [_ ->]]; [now left|].
    right. now rewrite lookup_insert_eq.
Qed.

(** What a [setVersion] that reports no error has done, whatever the
    driver: both statements were sent, and the working copy is the old one
    with the bookkeeping table replaced by the single row [v]. *)
Lemma setVersion_success (c : Container) (tx : Tx) (v : Z) (st st' : TxState) :
  setVersion c tx v st = (None, st') ->
  has_version_table (tx_data st) /\
  tx_data st' = <[whatsmeow_version := [VInt v]]> (tx_data st) /\
  tx_calls st' = S (S (tx_calls st)).
Proof.
  unfold setVersion, Tx_Exec, run_stmt, has_version_table. intros H.
  destruct (tx_fault tx (tx_calls st)) as [|e [|]];
    destruct (tx_data st !! whatsmeow_version) eqn:E; simpl in H;
    try discriminate.
  rewrite lookup_insert_eq in H.
  destruct (tx_fault tx (S (tx_calls st))) as [|e [|]]; simpl in H;
    try discriminate.
  invert H. simpl. rewrite insert_insert_eq. eauto.
Qed.

(** X2.  A [setVersion] that reports no error, whatever the rows of the
    bookkeeping table were before (none, one, several, malformed): the
    table existed, it now holds the single row [version], every other table
    is untouched, and exactly two statements were sent. *)
Theorem X2_setVersion_replaces (c : Container) (tx : Tx) (v : Z)
        (st st' : TxState) :
  setVersion c tx v st = (None, st') ->
  has_version_table (tx_data st) /\
  tx_data st' = <[whatsmeow_version := [VInt v]]> (tx_data st) /\
  stored_version (tx_data st') = v /\
  tx_calls st' = S (S (tx_calls st)).
Proof.
  intros H. destruct (setVersion_success c tx v st st' H) as (Ht & Hd & Hc).
  repeat split; auto. rewrite Hd. apply stored_version_single.
  now rewrite lookup_insert_eq.
Qed.

(** On a table of two rows, the first of them malformed. *)
Lemma X2_setVersion_replaces_witness :
  has_version_table
    (tx_data (tx_state_of {[ whatsmeow_version := [VText "v2"; VInt 1] ]})) /\
  tx_data (snd (setVersion (fresh healthy_driver) (healthy_handle 0) 5
                  (tx_state_of {[ whatsmeow_version := [VText "v2"; VInt 1] ]})))
  = <[whatsmeow_version := [VInt 5]]>
      (tx_data (tx_state_of {[ whatsmeow_version := [VText "v2"; VInt 1] ]})) /\
  stored_version
    (tx_data (snd (setVersion (fresh healthy_driver) (healthy_handle 0) 5
                     (tx_state_of
                        {[ whatsmeow_version := [VText "v2"; VInt 1] ]}))))
  = 5 /\
  tx_calls (snd (setVersion (fresh healthy_driver) (healthy_handle 0) 5
                   (tx_state_of
                      {[ whatsmeow_version := [VText "v2"; VInt 1] ]})))
  = S (S (tx_calls (tx_state_of
                      {[ whatsmeow_version := [VText "v2"; VInt 1] ]}))).
Proof.
  apply (X2_setVersion_replaces (fresh healthy_driver) (healthy_handle 0) 5).
  vm_compute. reflexivity.
Defined.

(** [setVersion] and the rest of the working copy, whatever the driver
    answers. *)
Lemma setVersion_confined (c : Container) (tx : Tx) (v : Z) (st : TxState) :
  (forall t, t <> whatsmeow_version ->
     tx_data (snd (setVersion c tx v st)) !! t = tx_data st !! t) /\
  (S (tx_calls st) <= tx_calls (snd (setVersion c tx v st))
     <= S (S (tx_calls st)))%nat /\
  (tx_data st !! whatsmeow_version = None ->
     fst (setVersion c tx v st) <> None /\
     tx_data (snd (setVersion c tx v st)) = tx_data st /\
     tx_calls (snd (setVersion c tx v st)) = S (tx_calls st)).
Proof.
  unfold setVersion, Tx_Exec, run_stmt.
  destruct (tx_data st !! whatsmeow_version) as [rows|] eqn:E.
  - destruct (tx_fault tx (tx_calls st)) as [|e [|]]; simpl;
      rewrite ?lookup_insert_eq;
      try destruct (tx_fault tx (S (tx_calls st))) as [|e' [|]]; simpl;
      (split; [intros t Ht; rewrite ?lookup_insert_ne by congruence;
               reflexivity
              | split; [lia | discriminate]]).
  - destruct (tx_fault tx (tx_calls st)) as [|e [|]]; simpl;
      (split; [reflexivity | split; [lia | intros _; auto]]).
Qed.

(** X3.  Whatever the driver answers and whether it succeeds or not,
    [setVersion] touches no table other than the bookkeeping table, and
    sends one statement or two.  When the bookkeeping table is missing it
    fails, leaves the working copy as it was, and does not send the
    [INSERT]. *)
Theorem X3_setVersion_confined (c : Container) (tx : Tx) (v : Z)
        (st : TxState) :
  (forall t, t <> whatsmeow_version ->
     tx_data (snd (setVersion c tx v st)) !! t = tx_data st !! t) /\
  (S (tx_calls st) <= tx_calls (snd (setVersion c tx v st))
     <= S (S (tx_calls st)))%nat /\
  (tx_data st !! whatsmeow_version = None ->
     fst (setVersion c tx v st) <> None /\
     tx_data (snd (setVersion c tx v st)) = tx_data st /\
     tx_calls (snd (setVersion c tx v st)) = S (tx_calls st)).
Proof. apply setVersion_confined. Qed.

(** X4.  On a working transaction that has the bookkeeping table, the last
    [setVersion] wins: writing [v] and then [w] leaves the data that
    writing [w] alone leaves, and both calls succeed.  With [w = v], a
    repeated [setVersion] changes nothing more. *)
Theorem X4_setVersion_last_wins (c : Container) (tx : Tx) (v w : Z)
        (st : TxState) :
  healthy_tx tx -> has_version_table (tx_data st) ->
  fst (setVersion c tx v st) = None /\
  fst (setVersion c tx w (snd (setVersion c tx v st))) = None /\
  tx_data (snd (setVersion c tx w (snd (setVersion c tx v st)))) =
    tx_data (snd (setVersion c tx w st)).
Proof.
  intros Htx Htab.
  destruct (setVersion_healthy c tx v st Htx Htab) as [st1 H1].
  destruct (setVersion_success _ _ _ _ _ H1) as (_ & Hd1 & _).
  assert (Htab1 : has_version_table (tx_data st1)).
  { red. rewrite Hd1, lookup_insert_eq. eauto. }
  destruct (setVersion_healthy c tx w st1 Htx Htab1) as [st2 H2].
  destruct (setVersion_success _ _ _ _ _ H2) as (_ & Hd2 & _).
  destruct (setVersion_healthy c tx w st Htx Htab) as [st3 H3].
  destruct (setVersion_success _ _ _ _ _ H3) as (_ & Hd3 & _).
  rewrite H1. simpl. rewrite H2, H3. simpl.
  rewrite Hd2, Hd1, Hd3, insert_insert_eq. auto.
Qed.

Lemma X4_setVersion_last_wins_witness :
  fst (setVersion (fresh healthy_driver) (healthy_handle 0) 1
         (tx_state_of upgraded_store)) = None /\
  fst (setVersion (fresh healthy_driver) (healthy_handle 0) 2
         (snd (setVersion (fresh healthy_driver) (healthy_handle 0) 1
                 (tx_state_of upgraded_store)))) = None /\
  tx_data (snd (setVersion (fresh healthy_driver) (healthy_handle 0) 2
                  (snd (setVersion (fresh healthy_driver) (healthy_handle 0) 1
                          (tx_state_of upgraded_store))))) =
    tx_data (snd (setVersion (fresh healthy_driver) (healthy_handle 0) 2
                    (tx_state_of upgraded_store))).
Proof.
  apply (X4_setVersion_last_wins (fresh healthy_driver) (healthy_handle 0) 1 2
           (tx_state_of upgraded_store)).
  - intros n. reflexivity.
  - vm_compute. eexists. reflexivity.
Defined.

(** X5.  Round trip.  A version written by [setVersion] in a transaction
    whose [Commit] succeeds is the version the next [getVersion] returns,
    provided its two statements are answered. *)
Theorem X5_setVersion_commit_getVersion (c : Container) (tx : Tx) (v : Z)
        (st st' : TxState) (d : DB) :
  setVersion c tx v st = (None, st') ->
  fst (Tx_Commit tx st' d) = None ->
  pool_outcome (driver d) (calls d) OpExec = Done ->
  pool_outcome (driver d) (S (calls d)) OpQuery = Done ->
  fst (getVersion (with_db c (snd (Tx_Commit tx st' d)))) = (v, None).
Proof.
  intros Hs Hc He Hq. apply setVersion_None in Hs.
  unfold Tx_Commit in *.
  destruct (tx_fault tx (tx_calls st')) as [|e [|]]; try discriminate.
  simpl in *.
  match goal with
  | |- fst (getVersion ?c1) = _ =>
      destruct (getVersion_reads c1 He Hq) as [-> _]
  end.
  unfold persisted_version. simpl.
  now rewrite (stored_version_single _ _ Hs).
Qed.

Lemma X5_setVersion_commit_getVersion_witness :
  fst (getVersion
         (with_db (fresh healthy_driver)
            (snd (Tx_Commit (healthy_handle 0)
                    (snd (setVersion (fresh healthy_driver) (healthy_handle 0)
                            7 (tx_state_of upgraded_store)))
                    (fresh_db healthy_driver))))) = (7, None).
Proof.
  apply (X5_setVersion_commit_getVersion (fresh healthy_driver)
           (healthy_handle 0) 7 (tx_state_of upgraded_store)).
  - vm_compute. reflexivity.
  - vm_compute. reflexivity.
  - reflexivity.
  - reflexivity.
Defined.

(** ** The steps of the repository, statement by statement *)

Lemma upgradeV1_create_all (tx : Tx) (c : Container) :
  upgradeV1 tx c = create_all tx V1_tables.
Proof. reflexivity. Qed.

(** One [create table IF NOT EXISTS], whatever the driver answers. *)
Lemma Tx_Exec_create (tx : Tx) (t : string) (st : TxState) :
  tx_calls (snd (Tx_Exec tx (CreateTableIfNotExists t) st)) = S (tx_calls st) /\
  (tx_data (snd (Tx_Exec tx (CreateTableIfNotExists t) st)) = tx_data st \/
   tx_data st !! t = None /\
   tx_data (snd (Tx_Exec tx (CreateTableIfNotExists t) st)) =
     <[t := []]> (tx_data st)) /\
  (is_Some (tx_data st !! t) ->
   tx_data (snd (Tx_Exec tx (CreateTableIfNotExists t) st)) = tx_data st) /\
  fst (Tx_Exec tx (CreateTableIfNotExists t) st) =
    match tx_fault tx (tx_calls st) with
    | Done => None
    | Failed e _ => Some e
    end /\
  (tx_fault tx (tx_calls st) = Done ->
   is_Some (tx_data (snd (Tx_Exec tx (CreateTableIfNotExists t) st)) !! t)).
Proof.
  unfold Tx_Exec, run_stmt.
  destruct (tx_data st !! t) as [rows|] eqn:E;
    destruct (tx_fault tx (tx_calls st)) as [|e [|]]; simpl;
    repeat split; auto; try discriminate;
    try (intros [x Hx]; discriminate);
    intros _; rewrite ?E, ?lookup_insert_eq; eauto.
Qed.

Section CreateAll.

Variable tx : Tx.

(** Whatever the driver answers, the statements only ever add empty tables
    of the list. *)
Lemma create_all_only_adds (tables : list string) : forall st,
  (forall t rows, tx_data st !! t = Some rows ->
     tx_data (snd (create_all tx tables st)) !! t = Some rows) /\
  (forall t, tx_data st !! t = None ->
     tx_data (snd (create_all tx tables st)) !! t = None \/
     t ∈ tables /\ tx_data (snd (create_all tx tables st)) !! t = Some []) /\
  (tx_calls st <= tx_calls (snd (create_all tx tables st))
     <= tx_calls st + length tables)%nat.
Proof.
  induction tables as [|t0 rest IH]; intros st; simpl.
  { repeat split; auto; lia. }
  unfold exec_or_return.
  destruct (Tx_Exec_create tx t0 st) as (Hc & Hd & _ & _ & _).
  destruct (Tx_Exec tx (CreateTableIfNotExists t0) st) as [[e|] st1];
    simpl in Hc, Hd.
  - simpl. repeat split; try lia.
    + intros t rows Ht. destruct Hd as [-> | [Hno ->]]; [exact Ht|].
      rewrite lookup_insert_ne; [exact Ht | congruence].
    + intros t Ht. destruct Hd as [-> | [Hno ->]]; [now left|].
      destruct (decide (t0 = t)) as [->|Hne].
      * right. rewrite lookup_insert_eq. split; [left | reflexivity].
      * left. now rewrite lookup_insert_ne.
  - destruct (IH st1) as (Hkeep & Hnew & Hcalls). repeat split; try lia.
    + intros t rows Ht. apply Hkeep.
      destruct Hd as [-> | [Hno ->]]; [exact Ht|].
      rewrite lookup_insert_ne; [exact Ht | congruence].
    + intros t Ht. destruct Hd as [Hd | [Hno Hd]].
      * rewrite Hd in Hnew. destruct (Hnew t Ht) as [H|[H1 H2]];
          [now left | right; split; [now right | exact H2]].
      * destruct (decide (t0 = t)) as [->|Hne].
        -- right. split; [left|]. apply Hkeep.
           now rewrite Hd, lookup_insert_eq.
        -- assert (Ht1 : tx_data st1 !! t = None)
             by now rewrite Hd, lookup_insert_ne.
           destruct (Hnew t Ht1) as [H|[H1 H2]];
             [now left | right; split; [now right | exact H2]].
Qed.

(** On a working transaction every statement is sent and answered, and
    every table of the list exists afterwards. *)
Lemma create_all_healthy (tables : list string) : forall st,
  healthy_tx tx ->
  fst (create_all tx tables st) = None /\
  tx_calls (snd (create_all tx tables st)) = (tx_calls st + length tables)%nat /\
  (forall t, t ∈ tables ->
     is_Some (tx_data (snd (create_all tx tables st)) !! t)).
Proof.
  induction tables as [|t0 rest IH]; intros st Htx; simpl.
  { repeat split; auto. intros t Ht. inversion Ht. }
  unfold exec_or_return.
  destruct (Tx_Exec_create tx t0 st) as (Hc & _ & _ & Hr & Hex).
  rewrite Htx in Hr. specialize (Hex (Htx _)).
  destruct (Tx_Exec tx (CreateTableIfNotExists t0) st) as [err st1].
  simpl in Hc, Hr, Hex. subst err.
  destruct (IH st1 Htx) as (Hnone & Hcalls & Hall).
  repeat split; auto; [lia|].
  intros t [-> | Ht]%elem_of_cons; [|now apply Hall].
  destruct Hex as [rows Hrows].
  destruct (create_all_only_adds rest st1) as (Hkeep & _).
  rewrite (Hkeep _ _ Hrows). eauto.
Qed.

(** When every table of the list exists already, nothing changes, whatever
    the driver answers. *)
Lemma create_all_noop (tables : list string) : forall st,
  (forall t, t ∈ tables -> is_Some (tx_data st !! t)) ->
  tx_data (snd (create_all tx tables st)) = tx_data st.
Proof.
  induction tables as [|t0 rest IH]; intros st Hall; simpl; [reflexivity|].
  unfold exec_or_return.
  destruct (Tx_Exec_create tx t0 st) as (_ & _ & Hsame & _).
  specialize (Hsame (Hall t0 ltac:(left))).
  destruct (Tx_Exec tx (CreateTableIfNotExists t0) st) as [[e|] st1];
    simpl in Hsame; simpl; [exact Hsame|].
  rewrite IH; [exact Hsame|].
  intros t Ht. rewrite Hsame. apply Hall. now right.
Qed.

(** The statements stop at the first one the driver refuses: with the
    first [k] statements answered and the next one not, its error is
    returned and exactly [k + 1] statements have been sent. *)
Lemma create_all_first_error (tables : list string) :
  forall (k : nat) (st : TxState) (e : error) (b : bool),
  (k < length tables)%nat ->
  (forall j, (j < k)%nat -> tx_fault tx (tx_calls st + j) = Done) ->
  tx_fault tx (tx_calls st + k) = Failed e b ->
  fst (create_all tx tables st) = Some e /\
  tx_calls (snd (create_all tx tables st)) = (tx_calls st + S k)%nat.
Proof.
  induction tables as [|t0 rest IH]; intros k st e b Hk Hdone Hfail;
    simpl in Hk; [lia|].
  simpl. unfold exec_or_return.
  destruct (Tx_Exec_create tx t0 st) as (Hc & _ & _ & Hr & _).
  destruct (Tx_Exec tx (CreateTableIfNotExists t0) st) as [err st1].
  simpl in Hc, Hr. destruct k as [|k].
  - rewrite Nat.add_0_r in Hfail. rewrite Hfail in Hr. subst err. simpl.
    split; [reflexivity | lia].
  - pose proof (Hdone 0%nat ltac:(lia)) as H0.
    rewrite Nat.add_0_r in H0. rewrite H0 in Hr. subst err.
    destruct (IH k st1 e b) as [H1 H2].
    + lia.
    + intros j Hj. rewrite Hc.
      replace (S (tx_calls st) + j)%nat with (tx_calls st + S j)%nat by lia.
      apply Hdone. lia.
    + rewrite Hc.
      replace (S (tx_calls st) + k)%nat with (tx_calls st + S k)%nat by lia.
      exact Hfail.
    + split; [exact H1 | rewrite H2, Hc; lia].
Qed.

End CreateAll.

(** X6.  Whatever the driver answers, [upgradeV1] destroys nothing: a table
    that exists keeps its rows, and a table that did not exist is either
    still missing or one of the nine tables of the step, created empty.  It
    sends at most nine statements. *)
Theorem X6_upgradeV1_only_adds (tx : Tx) (c : Container) (st : TxState) :
  (forall t rows, tx_data st !! t = Some rows ->
     tx_data (snd (upgradeV1 tx c st)) !! t = Some rows) /\
  (forall t, tx_data st !! t = None ->
     tx_data (snd (upgradeV1 tx c st)) !! t = None \/
     t ∈ V1_tables /\ tx_data (snd (upgradeV1 tx c st)) !! t = Some []) /\
  (tx_calls st <= tx_calls (snd (upgradeV1 tx c st)) <= tx_calls st + 9)%nat.
Proof.
  rewrite upgradeV1_create_all. apply (create_all_only_adds tx V1_tables st).
Qed.

(** X7.  On a working transaction [upgradeV1] returns nil after sending its
    nine statements, and each of its nine tables exists afterwards. *)
Theorem X7_upgradeV1_creates_all (tx : Tx) (c : Container) (st : TxState) :
  healthy_tx tx ->
  fst (upgradeV1 tx c st) = None /\
  tx_calls (snd (upgradeV1 tx c st)) = (tx_calls st + 9)%nat /\
  (forall t, t ∈ V1_tables ->
     is_Some (tx_data (snd (upgradeV1 tx c st)) !! t)).
Proof.
  intros Htx. rewrite upgradeV1_create_all.
  apply (create_all_healthy tx V1_tables st Htx).
Qed.

Lemma X7_upgradeV1_creates_all_witness :
  fst (upgradeV1 (healthy_handle 0) (fresh healthy_driver)
         (tx_state_of upgraded_store)) = None /\
  tx_calls (snd (upgradeV1 (healthy_handle 0) (fresh healthy_driver)
                   (tx_state_of upgraded_store))) =
    (tx_calls (tx_state_of upgraded_store) + 9)%nat /\
  (forall t, t ∈ V1_tables ->
     is_Some (tx_data (snd (upgradeV1 (healthy_handle 0)
                              (fresh healthy_driver)
                              (tx_state_of upgraded_store))) !! t)).
Proof.
  apply (X7_upgradeV1_creates_all (healthy_handle 0) (fresh healthy_driver)
           (tx_state_of upgraded_store)).
  intros n. reflexivity.
Defined.

(** X8.  [upgradeV1] can be run again: once it has gone through on a
    working transaction, a second run, in any transaction and whatever the
    driver then answers, leaves the data as the first run left it. *)
Theorem X8_upgradeV1_rerun (tx tx' : Tx) (c c' : Container) (st : TxState)
        (n : nat) :
  healthy_tx tx ->
  tx_data (snd (upgradeV1 tx' c'
                  {| tx_data := tx_data (snd (upgradeV1 tx c st));
                     tx_calls := n |})) =
  tx_data (snd (upgradeV1 tx c st)).
Proof.
  intros Htx. rewrite !upgradeV1_create_all.
  rewrite (create_all_noop tx' V1_tables); [reflexivity|]. simpl.
  apply (create_all_healthy tx V1_tables st Htx).
Qed.

(** The second run in a transaction whose fourth statement is refused. *)
Lemma X8_upgradeV1_rerun_witness :
  tx_data (snd (upgradeV1 (handle_of fourth_fails 0) (fresh fourth_fails)
                  {| tx_data :=
                       tx_data (snd (upgradeV1 (healthy_handle 0)
                                       (fresh healthy_driver)
                                       (tx_state_of store_with_data)));
                     tx_calls := 0 |})) =
  tx_data (snd (upgradeV1 (healthy_handle 0) (fresh healthy_driver)
                  (tx_state_of store_with_data))).
Proof.
  apply (X8_upgradeV1_rerun (healthy_handle 0) (handle_of fourth_fails 0)
           (fresh healthy_driver) (fresh fourth_fails)
           (tx_state_of store_with_data) 0).
  intros n. reflexivity.
Defined.

(** X9.  [upgradeV1] stops at the first statement the driver refuses: when
    its first [k] statements are answered and the next one is not
    ([k < 9]), it returns the error of that statement, and has sent
    [k + 1] statements and no more. *)
Theorem X9_upgradeV1_first_error (tx : Tx) (c : Container) (st : TxState)
        (k : nat) (e : error) (b : bool) :
  (k < 9)%nat ->
  (forall j, (j < k)%nat -> tx_fault tx (tx_calls st + j) = Done) ->
  tx_fault tx (tx_calls st + k) = Failed e b ->
  fst (upgradeV1 tx c st) = Some e /\
  tx_calls (snd (upgradeV1 tx c st)) = (tx_calls st + S k)%nat.
Proof.
  intros Hk Hdone Hfail. rewrite upgradeV1_create_all.
  apply (create_all_first_error tx V1_tables k st e b); auto.
Qed.

Lemma X9_upgradeV1_first_error_witness :
  fst (upgradeV1 (handle_of fourth_fails 0) (fresh fourth_fails)
         (tx_state_of ∅)) = Some "disk full"%string /\
  tx_calls (snd (upgradeV1 (handle_of fourth_fails 0) (fresh fourth_fails)
                   (tx_state_of ∅))) =
    (tx_calls (tx_state_of ∅) + 4)%nat.
Proof.
  apply (X9_upgradeV1_first_error (handle_of fourth_fails 0)
           (fresh fourth_fails) (tx_state_of ∅) 3 "disk full" false).
  - lia.
  - intros [|[|[|j]]] Hj; solve [reflexivity | lia].
  - reflexivity.
Defined.

Lemma upgradeV1_keeps_tables : keeps_tables upgradeV1.
Proof.
  intros tx c st t rows _ Ht. rewrite upgradeV1_create_all.
  now apply (proj1 (create_all_only_adds tx V1_tables st)).
Qed.

(** ** The other ways out of a turn *)

Section Exits.

Variable steps : list upgradeFunc.

Lemma Upgrade_loop_turn (fuel : nat) (v : Z) (c : Container) :
  v < len steps ->
  Upgrade_loop steps (S fuel) v c =
  match Upgrade_body steps v c with
  | (Some r, c') => (r, c')
  | (None, c') => Upgrade_loop steps fuel (v + 1) c'
  end.
Proof.
  intros Hlt. simpl. destruct (Z.ltb_spec v (len steps)); [reflexivity | lia].
Qed.

Lemma Upgrade_body_begin_fails (v : Z) (c : Container) (e : error) (d1 : DB) :
  DB_Begin (db c) = (inl e, d1) ->
  Upgrade_body steps v c = (Some (Returned (Some e)), with_db c (tick (db c))).
Proof.
  intros Hb. unfold Upgrade_body. rewrite Hb.
  now rewrite (DB_Begin_inl _ _ _ Hb).
Qed.

Lemma Upgrade_body_panics (v : Z) (c : Container) (tx : Tx) (st : TxState)
      (d1 : DB) :
  DB_Begin (db c) = (inr (tx, st), d1) ->
  index steps v = None ->
  Upgrade_body steps v c = (Some Panicked, with_db c d1).
Proof. intros Hb Hi. unfold Upgrade_body. now rewrite Hb, Hi. Qed.

Lemma Upgrade_body_setVersion_fails (v : Z) (c : Container) (f : upgradeFunc)
      (tx : Tx) (st st1 : TxState) (d1 : DB) (e : error) :
  DB_Begin (db c) = (inr (tx, st), d1) ->
  index steps v = Some f ->
  f tx (at_call v tx c d1) st = (None, st1) ->
  fst (setVersion c tx (v + 1) st1) = Some e ->
  Upgrade_body steps v c =
  (Some (Returned (Some e)),
   with_db c (emit (ESetVersion (tx_id tx) (v + 1)) (db (at_call v tx c d1)))).
Proof.
  intros Hb Hi Hf Hs. unfold Upgrade_body. rewrite Hb, Hi.
  unfold at_call in Hf. rewrite Hf.
  change (setVersion
            (with_db c (emit (ESetVersion (tx_id tx) (v + 1))
                          (emit (ECall v (tx_id tx))
                             (emit (EInfof (v + 1)) d1))))
            tx (v + 1) st1)
    with (setVersion c tx (v + 1) st1).
  destruct (setVersion c tx (v + 1) st1) as [err st2]. simpl in Hs.
  now subst err.
Qed.

Lemma Upgrade_body_commits (v : Z) (c : Container) (f : upgradeFunc)
      (tx : Tx) (st st1 st2 : TxState) (d1 : DB) :
  DB_Begin (db c) = (inr (tx, st), d1) ->
  index steps v = Some f ->
  f tx (at_call v tx c d1) st = (None, st1) ->
  setVersion c tx (v + 1) st1 = (None, st2) ->
  Upgrade_body steps v c =
  (match fst (Tx_Commit tx st2
                (emit (ESetVersion (tx_id tx) (v + 1))
                   (db (at_call v tx c d1)))) with
   | Some e => Some (Returned (Some e))
   | None => None
   end,
   with_db c (snd (Tx_Commit tx st2
                     (emit (ESetVersion (tx_id tx) (v + 1))
                        (db (at_call v tx c d1)))))).
Proof.
  intros Hb Hi Hf Hs. unfold Upgrade_body. rewrite Hb, Hi.
  unfold at_call in *. rewrite Hf.
  change (setVersion
            (with_db c (emit (ESetVersion (tx_id tx) (v + 1))
                          (emit (ECall v (tx_id tx))
                             (emit (EInfof (v + 1)) d1))))
            tx (v + 1) st1)
    with (setVersion c tx (v + 1) st1).
  rewrite Hs. simpl db.
  destruct (Tx_Commit tx st2 _) as [[e|] d5]; reflexivity.
Qed.

End Exits.

(** X10.  [Begin] refused.  When a call of [Upgrade] has come to a turn and
    the transaction cannot be begun, [Upgrade] returns the error of
    [Begin]; no step is called, nothing is added to the trace, no
    transaction is opened and the committed data is untouched. *)
Theorem X10_begin_failure (steps : list upgradeFunc) (c0 : Container)
        (fuel : nat) (v : Z) (c : Container) (e : error) (d1 : DB) :
  Upgrade steps c0 = Upgrade_loop steps (S fuel) v c ->
  v < len steps ->
  DB_Begin (db c) = (inl e, d1) ->
  exists c',
    Upgrade steps c0 = (Returned (Some e), c') /\
    trace (db c') = trace (db c) /\
    open_txs (db c') = open_txs (db c) /\
    next_tx (db c') = next_tx (db c) /\
    committed (db c') = committed (db c).
Proof.
  intros Hreach Hlt Hb. eexists. split.
  - rewrite Hreach, Upgrade_loop_turn by exact Hlt.
    now rewrite (Upgrade_body_begin_fails steps v c e d1 Hb).
  - simpl. auto.
Qed.

Lemma X10_begin_failure_witness :
  exists c',
    Upgrade Upgrades (fresh begin_fails) =
      (Returned (Some "too many connections"%string), c') /\
    trace (db c') = trace (db (first_turn begin_fails)) /\
    open_txs (db c') = open_txs (db (first_turn begin_fails)) /\
    next_tx (db c') = next_tx (db (first_turn begin_fails)) /\
    committed (db c') = committed (db (first_turn begin_fails)).
Proof.
  apply (X10_begin_failure Upgrades (fresh begin_fails) 1 0
           (first_turn begin_fails) "too many connections"
           (snd (DB_Begin (db (first_turn begin_fails)))));
    vm_compute; reflexivity.
Defined.

(** X11.  A negative stored version.  When the bookkeeping row holds a
    negative number and the driver answers, [Upgrade] begins a transaction
    and then panics on [Upgrades[version]], index out of range: it does not
    return, no step is called, the committed data is untouched, and the
    transaction just begun is left open. *)
Theorem X11_negative_version_panics (steps : list upgradeFunc) (c : Container) :
  persisted_version c < 0 ->
  pool_outcome (driver (db c)) (calls (db c)) OpExec = Done ->
  pool_outcome (driver (db c)) (S (calls (db c))) OpQuery = Done ->
  pool_outcome (driver (db c)) (S (S (calls (db c)))) OpBegin = Done ->
  exists c',
    Upgrade steps c = (Panicked, c') /\
    trace (db c') = trace (db c) ++ [EBegin (next_tx (db c))] /\
    (next_tx (db c) ∈ open_txs (db c')) /\
    committed (db c') = committed (db c).
Proof.
  intros Hneg He Hq Hb. unfold Upgrade.
  destruct (getVersion_reads c He Hq) as [Hread _].
  pose proof (getVersion_frame c) as Hfr. cbv zeta in Hfr.
  assert (Hcalls : calls (db (snd (getVersion c))) = S (S (calls (db c)))).
  { unfold getVersion, DB_Exec, DB_QueryRow.
    destruct (run_create_version (committed (db c))) as (s' & Hrun & _).
    rewrite He, Hrun. simpl. rewrite Hq.
    destruct (s' !! whatsmeow_version) as [[|? ?]|]; reflexivity. }
  destruct (getVersion c) as [[v err] c1]. simpl in *. invert Hread.
  destruct Hfr as (_ & Hd & Htr & Hop & Hnx & _ & Hcom & _).
  assert (Hsame : committed (db c1) = committed (db c)).
  { destruct Hcom as [H | [Hno _]]; [exact H|].
    unfold persisted_version, stored_version in Hneg.
    rewrite Hno in Hneg. lia. }
  assert (Hlt : persisted_version c < len steps) by (unfold len; lia).
  destruct (Z.to_nat (len steps - persisted_version c)) as [|fuel] eqn:Hfuel;
    [lia|].
  rewrite Upgrade_loop_turn by exact Hlt.
  assert (Hbegin : pool_outcome (driver (db c1)) (calls (db c1)) OpBegin = Done)
    by now rewrite Hd, Hcalls.
  rewrite (Upgrade_body_panics steps _ c1 _ _ _ (DB_Begin_Done _ Hbegin)).
  - eexists. split; [reflexivity|]. simpl.
    rewrite Htr, Hnx, Hsame. repeat split; auto.
    apply elem_of_union_l. now apply elem_of_singleton.
  - unfold index. destruct (Z.ltb_spec (persisted_version c) 0);
      [reflexivity | lia].
Qed.

Lemma X11_negative_version_panics_witness :
  exists c',
    Upgrade Upgrades (container_of negative_store healthy_driver) =
      (Panicked, c') /\
    trace (db c') =
      trace (db (container_of negative_store healthy_driver)) ++
      [EBegin (next_tx (db (container_of negative_store healthy_driver)))] /\
    (next_tx (db (container_of negative_store healthy_driver))
       ∈ open_txs (db c')) /\
    committed (db c') =
      committed (db (container_of negative_store healthy_driver)).
Proof.
  apply (X11_negative_version_panics Upgrades
           (container_of negative_store healthy_driver)).
  - vm_compute. reflexivity.
  - reflexivity.
  - reflexivity.
  - reflexivity.
Defined.

(** X12.  The version write fails.  When a call of [Upgrade] has come to a
    turn, the step has returned nil and [setVersion] reports the error [e],
    whatever the steps and the driver are: [Upgrade] returns [e]; nothing
    the step did is committed, the committed data and the stored version
    are what they were; and the trace of the turn ends with the call of
    [setVersion], with neither commit nor rollback: the transaction is
    still open. *)
Theorem X12_setVersion_failure (steps : list upgradeFunc) (c0 : Container)
        (fuel : nat) (v : Z) (c : Container) (f : upgradeFunc) (tx : Tx)
        (st st1 : TxState) (d1 : DB) (e : error) :
  Upgrade steps c0 = Upgrade_loop steps (S fuel) v c ->
  DB_Begin (db c) = (inr (tx, st), d1) ->
  v < len steps -> index steps v = Some f ->
  f tx (at_call v tx c d1) st = (None, st1) ->
  fst (setVersion c tx (v + 1) st1) = Some e ->
  exists c',
    Upgrade steps c0 = (Returned (Some e), c') /\
    trace (db c') =
      trace (db c) ++
      [EBegin (tx_id tx); EInfof (v + 1); ECall v (tx_id tx);
       ESetVersion (tx_id tx) (v + 1)] /\
    (tx_id tx ∈ open_txs (db c')) /\
    committed (db c') = committed (db c) /\
    persisted_version c' = persisted_version c.
Proof.
  intros Hreach Hb Hlt Hi Hf Hs. eexists. split.
  - rewrite Hreach, Upgrade_loop_turn by exact Hlt.
    now rewrite (Upgrade_body_setVersion_fails steps v c f tx st st1 d1 e
                   Hb Hi Hf Hs).
  - apply DB_Begin_inr in Hb. destruct Hb as (_ & -> & _ & ->).
    unfold persisted_version. simpl. rewrite <- !app_assoc. simpl.
    repeat split; auto.
    apply elem_of_union_l. now apply elem_of_singleton.
Qed.

(** The steps of the repository on a brand-new store, the [DELETE] of the
    first [setVersion] refused: the nine tables of [upgradeV1] are not
    committed. *)
Lemma X12_setVersion_failure_witness :
  exists c',
    Upgrade Upgrades (fresh delete_fails) =
      (Returned (Some "lock wait timeout"%string), c') /\
    trace (db c') =
      trace (db (first_turn delete_fails)) ++
      [EBegin (tx_id (handle_of delete_fails 0)); EInfof (0 + 1);
       ECall 0 (tx_id (handle_of delete_fails 0));
       ESetVersion (tx_id (handle_of delete_fails 0)) (0 + 1)] /\
    (tx_id (handle_of delete_fails 0) ∈ open_txs (db c')) /\
    committed (db c') = committed (db (first_turn delete_fails)) /\
    persisted_version c' = persisted_version (first_turn delete_fails).
Proof.
  apply (X12_setVersion_failure Upgrades (fresh delete_fails) 1 0
           (first_turn delete_fails) upgradeV1 (handle_of delete_fails 0)
           (tx_state_of (committed (db (first_turn delete_fails))))
           (after_upgradeV1 delete_fails)
           (snd (DB_Begin (db (first_turn delete_fails))))
           "lock wait timeout").
  - vm_compute. reflexivity.
  - vm_compute. reflexivity.
  - reflexivity.
  - reflexivity.
  - vm_compute. reflexivity.
  - vm_compute. reflexivity.
Defined.

(** X13.  [Commit] fails.  When a call of [Upgrade] has come to a turn, the
    step and [setVersion] have gone through and [Commit] reports the error
    [e]: [Upgrade] returns [e] and calls no further step, and the
    transaction is no longer open.  What is durable depends on the
    database: if the commit took effect although the error was reported,
    the committed data is the working copy of the transaction and the
    stored version is [v + 1]; if not, the committed data and the stored
    version are what they were. *)
Theorem X13_commit_failure (steps : list upgradeFunc) (c0 : Container)
        (fuel : nat) (v : Z) (c : Container) (f : upgradeFunc) (tx : Tx)
        (st st1 st2 : TxState) (d1 : DB) (e : error) (applied : bool) :
  Upgrade steps c0 = Upgrade_loop steps (S fuel) v c ->
  DB_Begin (db c) = (inr (tx, st), d1) ->
  v < len steps -> index steps v = Some f ->
  f tx (at_call v tx c d1) st = (None, st1) ->
  setVersion c tx (v + 1) st1 = (None, st2) ->
  tx_fault tx (tx_calls st2) = Failed e applied ->
  exists c',
    Upgrade steps c0 = (Returned (Some e), c') /\
    trace (db c') = trace (db c) ++ turn_events (tx_id tx) v /\
    (tx_id tx ∉ open_txs (db c')) /\
    committed (db c') = (if applied then tx_data st2 else committed (db c)) /\
    persisted_version c' = (if applied then v + 1 else persisted_version c).
Proof.
  intros Hreach Hb Hlt Hi Hf Hs Hc.
  exists (with_db c (snd (Tx_Commit tx st2
                            (emit (ESetVersion (tx_id tx) (v + 1))
                               (db (at_call v tx c d1)))))).
  split.
  - rewrite Hreach, Upgrade_loop_turn by exact Hlt.
    rewrite (Upgrade_body_commits steps v c f tx st st1 st2 d1 Hb Hi Hf Hs).
    unfold Tx_Commit. rewrite Hc. destruct applied; reflexivity.
  - apply setVersion_None in Hs.
    apply DB_Begin_inr in Hb. destruct Hb as (_ & -> & _ & ->).
    unfold persisted_version, Tx_Commit. rewrite Hc.
    destruct applied; simpl; rewrite <- !app_assoc; simpl.
    all: split; [reflexivity|].
    all: split; [intros [_ Hn]%elem_of_difference; apply Hn;
                 now apply elem_of_singleton|].
    all: split; [reflexivity|].
    + now apply stored_version_single.
    + reflexivity.
Qed.

(** The first [Commit] reports an error after having taken effect: the
    caller gets the error, and the store is at version 1. *)
Lemma X13_commit_failure_witness :
  exists c',
    Upgrade Upgrades (fresh (commit_fails true)) =
      (Returned (Some "connection reset"%string), c') /\
    trace (db c') =
      trace (db (first_turn (commit_fails true))) ++
      turn_events (tx_id (handle_of (commit_fails true) 0)) 0 /\
    (tx_id (handle_of (commit_fails true) 0) ∉ open_txs (db c')) /\
    committed (db c') =
      (if true then tx_data (after_setVersion (commit_fails true))
       else committed (db (first_turn (commit_fails true)))) /\
    persisted_version c' =
      (if true then 0 + 1
       else persisted_version (first_turn (commit_fails true))).
Proof.
  apply (X13_commit_failure Upgrades (fresh (commit_fails true)) 1 0
           (first_turn (commit_fails true)) upgradeV1
           (handle_of (commit_fails true) 0)
           (tx_state_of (committed (db (first_turn (commit_fails true)))))
           (after_upgradeV1 (commit_fails true))
           (after_setVersion (commit_fails true))
           (snd (DB_Begin (db (first_turn (commit_fails true)))))
           "connection reset" true).
  - vm_compute. reflexivity.
  - vm_compute. reflexivity.
  - reflexivity.
  - reflexivity.
  - vm_compute. reflexivity.
  - vm_compute. reflexivity.
  - vm_compute. reflexivity.
Defined.

(** ** A whole call, whatever happens *)

Lemma indices_from_S (v : Z) (m : nat) :
  indices_from v (S m) = v :: indices_from (v + 1) m.
Proof.
  unfold indices_from. simpl. f_equal; [lia|].
  rewrite <- seq_shift, map_map. apply map_ext. intros i. lia.
Qed.

Section AnyRun.

Variable steps : list upgradeFunc.

(** What one turn does to the trace, to the open transactions and to the
    transaction counter, whatever the step and the driver do. *)
Lemma Upgrade_body_shape (v : Z) (c c' : Container) (r : option result) :
  Upgrade_body steps v c = (r, c') ->
  exists t,
    trace (db c') = trace (db c) ++ t /\
    (calls_of t = [] \/ calls_of t = [v]) /\
    (r = None -> calls_of t = [v]) /\
    (r = None -> open_txs (db c') ⊆ open_txs (db c)) /\
    (forall x, x ∈ open_txs (db c') ->
               x ∈ open_txs (db c) \/ S x = next_tx (db c')) /\
    r <> Some (Returned None).
Proof.
  unfold Upgrade_body. intros H.
  destruct (DB_Begin (db c)) as [[e|[tx st]] d1] eqn:Hb.
  { apply DB_Begin_inl in Hb. invert H. exists []. simpl.
    rewrite app_nil_r. repeat split; auto; discriminate. }
  apply DB_Begin_inr in Hb. destruct Hb as (_ & -> & _ & ->).
  assert (Hclosed : forall x,
             x ∈ ({[next_tx (db c)]} ∪ open_txs (db c)) ∖ {[next_tx (db c)]} ->
             x ∈ open_txs (db c)).
  { intros x [[Hx|Hx]%elem_of_union Hn]%elem_of_difference;
      [contradiction | exact Hx]. }
  assert (Hopen : forall x,
             x ∈ {[next_tx (db c)]} ∪ open_txs (db c) ->
             x ∈ open_txs (db c) \/ S x = S (next_tx (db c))).
  { intros x [Hx%elem_of_singleton|Hx]%elem_of_union; [right | left]; auto. }
  destruct (index steps v) as [f|].
  2:{ invert H. exists [EBegin (next_tx (db c))]. simpl.
      repeat split; auto; discriminate. }
  match type of H with
  | context [f ?tx ?cc ?st] => destruct (f tx cc st) as [[e|] st1]
  end.
  { unfold Tx_Rollback in H.
    exists (failed_turn_events (next_tx (db c)) v).
    destruct (tx_fault _ _); invert H; simpl; rewrite <- !app_assoc;
      repeat split; auto; try discriminate. }
  match type of H with
  | context [setVersion ?cc ?tx ?n st1] =>
      destruct (setVersion cc tx n st1) as [[e|] st2]
  end.
  { invert H.
    exists [EBegin (next_tx (db c)); EInfof (v + 1); ECall v (next_tx (db c));
            ESetVersion (next_tx (db c)) (v + 1)].
    simpl. rewrite <- !app_assoc. repeat split; auto; discriminate. }
  unfold Tx_Commit in H.
  exists (turn_events (next_tx (db c)) v).
  destruct (tx_fault _ _) as [|e [|]]; invert H; simpl; rewrite <- !app_assoc;
    repeat split; auto; try discriminate; intros _ x Hx; auto.
Qed.

(** The steps called by the loop are consecutive, from the version it is
    entered with, and no more than the steps that are pending. *)
Lemma Upgrade_loop_calls (fuel : nat) :
  forall (v : Z) (c c' : Container) (r : result),
  Upgrade_loop steps fuel v c = (r, c') ->
  exists m : nat,
    Z.of_nat m <= Z.max 0 (len steps - v) /\
    calls_of (trace (db c')) = calls_of (trace (db c)) ++ indices_from v m.
Proof.
  induction fuel as [|fuel IH]; intros v c c' r H; simpl in H;
    destruct (Z.ltb_spec v (len steps)) as [Hlt|Hge];
    try solve [invert H; exists 0%nat; simpl; rewrite app_nil_r; split;
               [lia | reflexivity]].
  destruct (Upgrade_body steps v c) as [[r1|] c1] eqn:Hb;
    apply Upgrade_body_shape in Hb;
    destruct Hb as (t & Htr & Hcalls & Hnone & _).
  - invert H. destruct Hcalls as [Hc|Hc].
    + exists 0%nat. rewrite Htr, calls_of_app, Hc. split; [lia | reflexivity].
    + exists 1%nat. rewrite Htr, calls_of_app, Hc, indices_from_S.
      split; [lia | reflexivity].
  - destruct (IH _ _ _ _ H) as (m & Hm & Hc).
    exists (S m). rewrite Hc, Htr, calls_of_app, (Hnone eq_refl),
      indices_from_S, <- app_assoc.
    split; [lia | reflexivity].
Qed.

(** Transactions over the loop: a loop that returns nil leaves none of its
    own open, and otherwise at most the last one it began. *)
Lemma Upgrade_loop_open (fuel : nat) :
  forall (v : Z) (c c' : Container) (r : result),
  Upgrade_loop steps fuel v c = (r, c') ->
  (r = Returned None -> open_txs (db c') ⊆ open_txs (db c)) /\
  (forall x, x ∈ open_txs (db c') ->
             x ∈ open_txs (db c) \/ S x = next_tx (db c')).
Proof.
  induction fuel as [|fuel IH]; intros v c c' r H; simpl in H;
    destruct (Z.ltb_spec v (len steps)) as [Hlt|Hge];
    try solve [invert H; split; [intros _ x Hx; exact Hx | auto]].
  destruct (Upgrade_body steps v c) as [[r1|] c1] eqn:Hb;
    apply Upgrade_body_shape in Hb;
    destruct Hb as (t & _ & _ & _ & Hsub & Hopen & Hnot).
  - invert H. split; [|exact Hopen].
    intros ->. now contradiction Hnot.
  - destruct (IH _ _ _ _ H) as [Hnil Hlast]. specialize (Hsub eq_refl).
    split.
    + intros Hr x Hx. apply Hsub. now apply (Hnil Hr).
    + intros x Hx. destruct (Hlast x Hx) as [H1|H1]; [left|right]; auto.
Qed.

(** A loop that returns nil has brought the stored version to the number
    of steps, unless it was there or beyond already. *)
Lemma Upgrade_loop_nil (fuel : nat) :
  forall (v : Z) (c c' : Container),
  Upgrade_loop steps fuel v c = (Returned None, c') ->
  stored_version (committed (db c)) = v ->
  has_version_table (committed (db c)) ->
  stored_version (committed (db c')) = Z.max v (len steps) /\
  has_version_table (committed (db c')).
Proof.
  induction fuel as [|fuel IH]; intros v c c' H Hver Htab; simpl in H;
    destruct (Z.ltb_spec v (len steps)) as [Hlt|Hge];
    try solve [invert H; split; [lia | exact Htab]];
    try discriminate.
  destruct (Upgrade_body steps v c) as [[r1|] c1] eqn:Hb.
  - apply Upgrade_body_shape in Hb. destruct Hb as (_ & _ & _ & _ & _ & _ & Hn).
    invert H. now contradiction Hn.
  - apply Upgrade_body_any in Hb. destruct Hb as (_ & _ & _ & Hrow & _).
    specialize (Hrow eq_refl).
    destruct (IH _ _ _ H (stored_version_single _ _ Hrow)) as [Hv Ht].
    { red. rewrite Hrow. eauto. }
    split; [lia | exact Ht].
Qed.

End AnyRun.

(** X14.  Whatever the steps and the driver do, the steps one call of
    [Upgrade] calls are consecutive and in ascending order, starting at the
    version [getVersion] returned: no step is called twice, none is
    skipped, and no more are called than are pending. *)
Theorem X14_calls_consecutive (steps : list upgradeFunc) (c : Container) :
  exists m : nat,
    Z.of_nat m <= Z.max 0 (len steps - fst (fst (getVersion c))) /\
    calls_of (trace (db (snd (Upgrade steps c)))) =
      calls_of (trace (db c)) ++ indices_from (fst (fst (getVersion c))) m.
Proof.
  unfold Upgrade. pose proof (getVersion_frame c) as Hfr. cbv zeta in Hfr.
  destruct Hfr as (_ & _ & Htr & _).
  destruct (getVersion c) as [[v [e|]] c1]; simpl in *.
  - exists 0%nat. rewrite Htr, app_nil_r. split; [lia | reflexivity].
  - destruct (Upgrade_loop steps (Z.to_nat (len steps - v)) v c1)
      as [r c'] eqn:Hl.
    destruct (Upgrade_loop_calls steps _ _ _ _ _ Hl) as (m & Hm & Hc).
    exists m. simpl. now rewrite Hc, Htr.
Qed.

(** X15.  Transactions over a call, whatever the steps and the driver do:
    when [Upgrade] returns nil, every transaction it began is terminated;
    and however it ends, the only transaction it can leave open is the last
    one it began. *)
Theorem X15_open_transactions (steps : list upgradeFunc) (c : Container) :
  (fst (Upgrade steps c) = Returned None ->
   open_txs (db (snd (Upgrade steps c))) ⊆ open_txs (db c)) /\
  (forall x, x ∈ open_txs (db (snd (Upgrade steps c))) ->
             x ∈ open_txs (db c) \/
             S x = next_tx (db (snd (Upgrade steps c)))).
Proof.
  unfold Upgrade. pose proof (getVersion_frame c) as Hfr. cbv zeta in Hfr.
  destruct Hfr as (_ & _ & _ & Hop & _).
  destruct (getVersion c) as [[v [e|]] c1]; simpl in *.
  - rewrite Hop. split; [discriminate | auto].
  - destruct (Upgrade_loop steps (Z.to_nat (len steps - v)) v c1)
      as [r c'] eqn:Hl.
    destruct (Upgrade_loop_open steps _ _ _ _ _ Hl) as [Hnil Hlast].
    rewrite Hop in *. simpl. split; auto.
Qed.

(** Where a call that returned nil has left the store. *)
Lemma Upgrade_nil_state (steps : list upgradeFunc) (c c' : Container) :
  pool_outcome (driver (db c)) (S (calls (db c))) OpQuery = Done ->
  Upgrade steps c = (Returned None, c') ->
  persisted_version c' = Z.max (persisted_version c) (len steps) /\
  has_version_table (committed (db c')) /\
  driver (db c') = driver (db c).
Proof.
  intros Hq H. unfold Upgrade in H.
  pose proof (getVersion_value c) as Hval.
  destruct (pool_outcome (driver (db c)) (calls (db c)) OpExec) as [|e b] eqn:He.
  2:{ destruct (getVersion c) as [[v err] c1]. simpl in Hval. invert Hval.
      discriminate. }
  destruct (getVersion_reads c He Hq) as [_ Htab].
  pose proof (getVersion_frame c) as Hfr. cbv zeta in Hfr.
  destruct Hfr as (_ & Hd & _ & _ & _ & Hsv & _).
  rewrite Hq in Hval.
  destruct (getVersion c) as [[v err] c1]. simpl in *. invert Hval.
  destruct (Upgrade_loop_nil steps _ _ _ _ H Hsv Htab) as [Hv Ht].
  destruct (Upgrade_loop_frame steps _ _ _ _ _ H) as (Hd' & _).
  unfold persisted_version. repeat split; auto. congruence.
Qed.

(** A call on a store that is already at the last version, or beyond. *)
Lemma Upgrade_noop (steps : list upgradeFunc) (c : Container) :
  len steps <= persisted_version c ->
  has_version_table (committed (db c)) ->
  pool_outcome (driver (db c)) (calls (db c)) OpExec = Done ->
  pool_outcome (driver (db c)) (S (calls (db c))) OpQuery = Done ->
  Upgrade steps c = (Returned None, with_db c (tick (tick (db c)))).
Proof.
  intros Hle [rows Hrows] He Hq.
  assert (Hg : getVersion c =
               ((persisted_version c, None), with_db c (tick (tick (db c))))).
  { unfold getVersion, DB_Exec, DB_QueryRow, run_stmt, persisted_version,
      stored_version.
    rewrite He, Hrows. simpl. rewrite Hq, Hrows.
    destruct rows; reflexivity. }
  unfold Upgrade. rewrite Hg. now apply Upgrade_loop_exit.
Qed.

(** X16.  What nil means.  When [Upgrade] returns nil and the [SELECT] of
    its [getVersion] was answered, the stored version is the number of
    steps (or what it was, if that was more): every pending step has been
    applied and recorded, whatever else the driver did. *)
Theorem X16_nil_means_latest (steps : list upgradeFunc) (c c' : Container) :
  pool_outcome (driver (db c)) (S (calls (db c))) OpQuery = Done ->
  Upgrade steps c = (Returned None, c') ->
  persisted_version c' = Z.max (persisted_version c) (len steps).
Proof. intros Hq H. now apply (Upgrade_nil_state steps c c' Hq H). Qed.

Lemma X16_nil_means_latest_witness :
  persisted_version (snd (Upgrade Upgrades (fresh healthy_driver))) =
  Z.max (persisted_version (fresh healthy_driver)) (len Upgrades).
Proof.
  apply (X16_nil_means_latest Upgrades (fresh healthy_driver)).
  - reflexivity.
  - vm_compute. reflexivity.
Defined.

(** X17.  Nothing to do.  On a store whose version is the number of steps
    or more, once the two statements of [getVersion] are answered,
    [Upgrade] returns nil and leaves the world as it found it, two calls on
    the pool apart: no transaction is begun, no step is called, no row is
    written. *)
Theorem X17_up_to_date_noop (steps : list upgradeFunc) (c : Container) :
  len steps <= persisted_version c ->
  has_version_table (committed (db c)) ->
  pool_outcome (driver (db c)) (calls (db c)) OpExec = Done ->
  pool_outcome (driver (db c)) (S (calls (db c))) OpQuery = Done ->
  Upgrade steps c = (Returned None, with_db c (tick (tick (db c)))).
Proof. apply Upgrade_noop. Qed.

Lemma X17_up_to_date_noop_witness :
  Upgrade Upgrades (container_of upgraded_store delete_fails) =
  (Returned None,
   with_db (container_of upgraded_store delete_fails)
     (tick (tick (db (container_of upgraded_store delete_fails))))).
Proof.
  apply (X17_up_to_date_noop Upgrades
           (container_of upgraded_store delete_fails)).
  - vm_compute. discriminate.
  - vm_compute. eexists. reflexivity.
  - reflexivity.
  - reflexivity.
Defined.

(** X18.  [Upgrade] can be called again.  After a call that returned nil,
    behind a driver that answers the statements of [getVersion], a second
    call returns nil too and changes nothing but the count of calls on the
    pool. *)
Theorem X18_second_call_noop (steps : list upgradeFunc) (c c1 : Container) :
  creates_ok (driver (db c)) -> reads_ok (driver (db c)) ->
  Upgrade steps c = (Returned None, c1) ->
  Upgrade steps c1 = (Returned None, with_db c1 (tick (tick (db c1)))).
Proof.
  intros Hc Hr H.
  destruct (Upgrade_nil_state steps c c1 (Hr _) H) as (Hv & Htab & Hd).
  apply Upgrade_noop; rewrite ?Hd; auto. lia.
Qed.

Lemma X18_second_call_noop_witness :
  Upgrade Upgrades (snd (Upgrade Upgrades (fresh healthy_driver))) =
  (Returned None,
   with_db (snd (Upgrade Upgrades (fresh healthy_driver)))
     (tick (tick (db (snd (Upgrade Upgrades (fresh healthy_driver))))))).
Proof.
  apply (X18_second_call_noop Upgrades (fresh healthy_driver)).
  - intros n. reflexivity.
  - intros n. reflexivity.
  - vm_compute. reflexivity.
Defined.

(** ** What a call leaves alone *)

Lemma index_elem_of {A : Type} (l : list A) (i : Z) (x : A) :
  index l i = Some x -> x ∈ l.
Proof.
  unfold index. destruct (i <? 0); [discriminate|].
  apply list_elem_of_lookup_2.
Qed.

Lemma upgradeV2_keeps_tables : keeps_tables upgradeV2.
Proof. intros tx c st t rows _ Ht. exact Ht. Qed.

Lemma Upgrades_keep_tables : forall f, f ∈ Upgrades -> keeps_tables f.
Proof.
  intros f Hf. unfold Upgrades in Hf.
  apply elem_of_cons in Hf as [-> | Hf]; [apply upgradeV1_keeps_tables|].
  apply elem_of_cons in Hf as [-> | Hf]; [apply upgradeV2_keeps_tables|].
  inversion Hf.
Qed.

Lemma Upgrades_ignore_container : forall f, f ∈ Upgrades -> ignores_container f.
Proof.
  intros f Hf. unfold Upgrades in Hf.
  apply elem_of_cons in Hf as [-> | Hf]; [intros tx c1 c2 st; reflexivity|].
  apply elem_of_cons in Hf as [-> | Hf]; [intros tx c1 c2 st; reflexivity|].
  inversion Hf.
Qed.

Section Kept.

Variable steps : list upgradeFunc.
Hypothesis steps_keep : forall f, f ∈ steps -> keeps_tables f.

Variable t : string.
Variable rows : list value.
Hypothesis t_other : t <> whatsmeow_version.

Lemma Upgrade_body_keeps (v : Z) (c c' : Container) (r : option result) :
  Upgrade_body steps v c = (r, c') ->
  committed (db c) !! t = Some rows ->
  committed (db c') !! t = Some rows.
Proof.
  unfold Upgrade_body. intros H Ht.
  destruct (DB_Begin (db c)) as [[e|[tx st]] d1] eqn:Hb.
  { apply DB_Begin_inl in Hb. invert H. exact Ht. }
  apply DB_Begin_inr in Hb. destruct Hb as (_ & _ & -> & ->).
  destruct (index steps v) as [f|] eqn:Hi.
  2:{ invert H. exact Ht. }
  pose proof (steps_keep f (index_elem_of _ _ _ Hi)) as Hkeep.
  match type of H with
  | context [f tx ?cc ?st] =>
      pose proof (Hkeep tx cc st t rows t_other Ht) as Ht1;
      destruct (f tx cc st) as [[e|] st1]
  end.
  { unfold Tx_Rollback in H. destruct (tx_fault _ _); invert H; exact Ht. }
  simpl in Ht1.
  match type of H with
  | context [setVersion ?cc tx ?n st1] =>
      pose proof (proj1 (setVersion_confined cc tx n st1) t t_other) as Ht2;
      destruct (setVersion cc tx n st1) as [[e|] st2]
  end.
  { invert H. exact Ht. }
  simpl in Ht2. unfold Tx_Commit in H.
  destruct (tx_fault _ _) as [|e [|]]; invert H; simpl; congruence.
Qed.

Lemma Upgrade_loop_keeps (fuel : nat) :
  forall (v : Z) (c c' : Container) (r : result),
  Upgrade_loop steps fuel v c = (r, c') ->
  committed (db c) !! t = Some rows ->
  committed (db c') !! t = Some rows.
Proof.
  induction fuel as [|fuel IH]; intros v c c' r H Ht; simpl in H;
    destruct (Z.ltb_spec v (len steps)) as [Hlt|Hge];
    try solve [invert H; exact Ht].
  destruct (Upgrade_body steps v c) as [[r1|] c1] eqn:Hb;
    pose proof (Upgrade_body_keeps _ _ _ _ Hb Ht) as Ht1.
  - invert H. exact Ht1.
  - exact (IH _ _ _ _ H Ht1).
Qed.

Lemma Upgrade_keeps (c : Container) :
  committed (db c) !! t = Some rows ->
  committed (db (snd (Upgrade steps c))) !! t = Some rows.
Proof.
  intros Ht. unfold Upgrade.
  pose proof (getVersion_frame c) as Hfr. cbv zeta in Hfr.
  destruct Hfr as (_ & _ & _ & _ & _ & _ & Hcom & _).
  assert (Ht1 : committed (db (snd (getVersion c))) !! t = Some rows).
  { destruct Hcom as [-> | [_ ->]]; [exact Ht|].
    rewrite lookup_insert_ne; [exact Ht | congruence]. }
  destruct (getVersion c) as [[v [e|]] c1]; simpl in *; [exact Ht1|].
  destruct (Upgrade_loop steps (Z.to_nat (len steps - v)) v c1)
    as [r c'] eqn:Hl.
  exact (Upgrade_loop_keeps _ _ _ _ _ Hl Ht1).
Qed.

End Kept.

(** X19.  The data of the application is safe.  When no step changes the
    rows of an existing table (the two steps of the repository do not), no
    sequence of calls of [Upgrade] does either, whatever the driver
    answers and however the calls end: a table other than the bookkeeping
    table that exists keeps its rows. *)
Theorem X19_tables_kept (steps : list upgradeFunc) (c : Container)
        (t : string) (rows : list value) (n : nat) :
  (forall f, f ∈ steps -> keeps_tables f) ->
  t <> whatsmeow_version ->
  committed (db c) !! t = Some rows ->
  committed (db (Upgrade_times steps n c)) !! t = Some rows.
Proof.
  intros Hk Hne Ht. induction n as [|n IH]; simpl; [exact Ht|].
  now apply Upgrade_keeps.
Qed.

(** Two calls with the steps of the repository on a store that has rows in
    [whatsmeow_device], the first call losing its version write. *)
Lemma X19_tables_kept_witness :
  committed (db (Upgrade_times Upgrades 2
                   (container_of store_with_data delete_fails)))
    !! "whatsmeow_device"%string = Some [VInt 7; VInt 8; VInt 9].
Proof.
  apply (X19_tables_kept Upgrades (container_of store_with_data delete_fails)
           "whatsmeow_device" [VInt 7; VInt 8; VInt 9] 2).
  - apply Upgrades_keep_tables.
  - unfold whatsmeow_version. discriminate.
  - vm_compute. reflexivity.
Defined.

Section Dialect.

Variable steps : list upgradeFunc.
Hypothesis steps_ignore : forall f, f ∈ steps -> ignores_container f.

Variable d : string.

Lemma getVersion_dialect (c : Container) :
  getVersion (set_dialect d c) =
  (fst (getVersion c), set_dialect d (snd (getVersion c))).
Proof.
  unfold getVersion. simpl db.
  destruct (DB_Exec _ (db c)) as [[e|] d1]; [reflexivity|].
  destruct (DB_QueryRow _ d1) as [row d2]. reflexivity.
Qed.

Lemma Upgrade_body_dialect (v : Z) (c : Container) :
  Upgrade_body steps v (set_dialect d c) =
  (fst (Upgrade_body steps v c), set_dialect d (snd (Upgrade_body steps v c))).
Proof.
  unfold Upgrade_body. simpl db.
  destruct (DB_Begin (db c)) as [[e|[tx st]] d1]; [reflexivity|].
  destruct (index steps v) as [f|] eqn:Hi; [|reflexivity].
  pose proof (steps_ignore f (index_elem_of _ _ _ Hi)) as Hign.
  rewrite (Hign tx
             (with_db (set_dialect d c)
                (emit (ECall v (tx_id tx)) (emit (EInfof (v + 1)) d1)))
             (with_db c
                (emit (ECall v (tx_id tx)) (emit (EInfof (v + 1)) d1)))
             st).
  destruct (f tx _ st) as [[e|] st1].
  { destruct (Tx_Rollback tx st1 _) as [e' d4]. reflexivity. }
  change (setVersion
            (with_db (set_dialect d c)
               (emit (ESetVersion (tx_id tx) (v + 1))
                  (emit (ECall v (tx_id tx)) (emit (EInfof (v + 1)) d1))))
            tx (v + 1) st1)
    with (setVersion
            (with_db c
               (emit (ESetVersion (tx_id tx) (v + 1))
                  (emit (ECall v (tx_id tx)) (emit (EInfof (v + 1)) d1))))
            tx (v + 1) st1).
  destruct (setVersion _ tx (v + 1) st1) as [[e|] st2]; [reflexivity|].
  destruct (Tx_Commit tx st2 _) as [[e|] d5]; reflexivity.
Qed.

Lemma Upgrade_loop_dialect (fuel : nat) : forall (v : Z) (c : Container),
  Upgrade_loop steps fuel v (set_dialect d c) =
  (fst (Upgrade_loop steps fuel v c),
   set_dialect d (snd (Upgrade_loop steps fuel v c))).
Proof.
  induction fuel as [|fuel IH]; intros v c; simpl;
    destruct (v <? len steps); try reflexivity.
  rewrite Upgrade_body_dialect.
  destruct (Upgrade_body steps v c) as [[r|] c1]; simpl; [reflexivity|].
  apply IH.
Qed.

Lemma Upgrade_dialect (c : Container) :
  Upgrade steps (set_dialect d c) =
  (fst (Upgrade steps c), set_dialect d (snd (Upgrade steps c))).
Proof.
  unfold Upgrade. rewrite getVersion_dialect.
  destruct (getVersion c) as [[v [e|]] c1]; simpl; [reflexivity|].
  apply Upgrade_loop_dialect.
Qed.

End Dialect.

(** X20.  The dialect plays no part.  When no step looks at the container
    (the two steps of the repository do not: [upgradeV1] ignores it, and the
    code of [upgradeV2] that read [container.dialect] is commented out), a
    call of [Upgrade] on the same database with another dialect ends the
    same way and leaves the same database, whatever the driver answers. *)
Theorem X20_dialect_plays_no_part (steps : list upgradeFunc) (d : string)
        (c : Container) :
  (forall f, f ∈ steps -> ignores_container f) ->
  fst (Upgrade steps (set_dialect d c)) = fst (Upgrade steps c) /\
  db (snd (Upgrade steps (set_dialect d c))) = db (snd (Upgrade steps c)) /\
  dialect (snd (Upgrade steps (set_dialect d c))) = d.
Proof.
  intros Hign. rewrite (Upgrade_dialect steps Hign d c). simpl. auto.
Qed.

Lemma X20_dialect_plays_no_part_witness :
  fst (Upgrade Upgrades (set_dialect "postgres" (fresh commit_fails_lost))) =
    fst (Upgrade Upgrades (fresh commit_fails_lost)) /\
  db (snd (Upgrade Upgrades (set_dialect "postgres" (fresh commit_fails_lost))))
    = db (snd (Upgrade Upgrades (fresh commit_fails_lost))) /\
  dialect (snd (Upgrade Upgrades
                  (set_dialect "postgres" (fresh commit_fails_lost)))) =
    "postgres"%string.
Proof.
  apply (X20_dialect_plays_no_part Upgrades "postgres"
           (fresh commit_fails_lost)).
  apply Upgrades_ignore_container.
Defined.
